(** * Lawnotation: assignment sequencing, task replication and reassignment

    A shallow embedding of the tRPC routers
    [server/trpc/routers/assignment.router.ts] and
    [server/trpc/routers/task.router.ts], together with the SQL function
    [get_all_annotators_from_task] of the migration.

    The relational store is a record of tables (lists of rows, in insertion
    order) with one identity counter per table.  A procedure is a function
    from the store to a new store and either an exception or a value: an
    exception does not roll the store back, since the routers never open a
    transaction.  Every mutation of the store and every call to the identity
    or mail provider is appended to an effect log. *)

From Stdlib Require Import ZArith Lia List Permutation Sorted Ascii.
From stdpp Require Import base decidable option list strings gmap pretty.

Local Open Scope string_scope.

(** ** Rows *)

Inductive AssignmentStatuses := PENDING | DONE.

(** Modelled from the spec: the enum [Origins] of [~/utils/enums] is not part
    of the sources; the data model names the two values manual and imported. *)
Inductive Origins := MANUAL | IMPORTED.

#[global] Instance AssignmentStatuses_eq_dec : EqDecision AssignmentStatuses.
Proof. solve_decision. Defined.

#[global] Instance Origins_eq_dec : EqDecision Origins.
Proof. solve_decision. Defined.

Module Task.
Record t := mk {
  id : Z;
  name : string;
  desc : string;
  project_id : Z;
  labelset_id : Z;
  ann_guidelines : string;
  ml_model_id : option Z;
  annotation_level : string
}.
End Task.

Module Assignment.
Record t := mk {
  id : Z;
  annotator_id : option string;
  task_id : Z;
  document_id : Z;
  status : AssignmentStatuses;
  seq_pos : Z;
  difficulty_rating : Z;
  annotator_number : Z;
  origin : Origins
}.

Definition with_annotator_id (v : option string) (a : t) : t :=
  mk (id a) v (task_id a) (document_id a) (status a) (seq_pos a)
     (difficulty_rating a) (annotator_number a) (origin a).
End Assignment.

Module Annotation.
Record t := mk {
  id : Z;
  assignment_id : Z;
  label : string;
  start_index : option Z;
  end_index : option Z;
  text : string;
  ls_id : string;
  origin : Origins;
  confidence_rating : Z
}.
End Annotation.

Module Relation.
Record t := mk {
  id : Z;
  from_id : Z;
  to_id : Z;
  ls_from : string;
  ls_to : string;
  direction : string;
  labels : list string
}.
End Relation.

Module Document.
Record t := mk {
  id : Z;
  name : string;
  full_text : string
}.
End Document.

Module User.
Record t := mk {
  id : string;
  email : string;
  role : option string
}.
End User.

(** A row of [get_all_annotators_from_task]: the columns of [users] (all
    null when the LEFT JOIN finds no user) and the slot number. *)
Module Annotator.
Record t := mk {
  id : option string;
  email : option string;
  role : option string;
  annotator_number : Z
}.

Definition with_email (e : option string) (a : t) : t :=
  mk (id a) e (role a) (annotator_number a).
End Annotator.

(** ** Effects and the store *)

Inductive Effect :=
| EInsertTask (id : Z)
| EInsertAssignments (ids : list Z)
| EInsertAnnotations (ids : list Z)
| EInsertRelations (ids : list Z)
| EUpdateAssignment (id : Z) (annotator_id : option string)
| EInviteUser (email : string) (task_id : Z)
| EUpdateUserMetadata (user_id : string) (task_id : Z)
| ESendMail (email : string).

Record Store := mkStore {
  tasks : list Task.t;
  assignments : list Assignment.t;
  annotations : list Annotation.t;
  annotation_relations : list Relation.t;
  documents : list Document.t;
  users : list User.t;
  next_task_id : Z;
  next_assignment_id : Z;
  next_annotation_id : Z;
  next_relation_id : Z;
  log : list Effect
}.

Definition set_tasks (s : Store) (l : list Task.t) (n : Z) : Store :=
  mkStore l (assignments s) (annotations s) (annotation_relations s)
    (documents s) (users s) n (next_assignment_id s) (next_annotation_id s)
    (next_relation_id s) (log s).

Definition set_assignments (s : Store) (l : list Assignment.t) (n : Z) : Store :=
  mkStore (tasks s) l (annotations s) (annotation_relations s)
    (documents s) (users s) (next_task_id s) n (next_annotation_id s)
    (next_relation_id s) (log s).

Definition set_annotations (s : Store) (l : list Annotation.t) (n : Z) : Store :=
  mkStore (tasks s) (assignments s) l (annotation_relations s)
    (documents s) (users s) (next_task_id s) (next_assignment_id s) n
    (next_relation_id s) (log s).

Definition set_relations (s : Store) (l : list Relation.t) (n : Z) : Store :=
  mkStore (tasks s) (assignments s) (annotations s) l
    (documents s) (users s) (next_task_id s) (next_assignment_id s)
    (next_annotation_id s) n (log s).

Definition set_users (s : Store) (l : list User.t) : Store :=
  mkStore (tasks s) (assignments s) (annotations s) (annotation_relations s)
    (documents s) l (next_task_id s) (next_assignment_id s)
    (next_annotation_id s) (next_relation_id s) (log s).

Definition emit (e : Effect) (s : Store) : Store :=
  mkStore (tasks s) (assignments s) (annotations s) (annotation_relations s)
    (documents s) (users s) (next_task_id s) (next_assignment_id s)
    (next_annotation_id s) (next_relation_id s) (log s ++ [e]).

(** ** Exceptions and the procedure monad *)

Inductive TRPCCode := NOT_FOUND | INTERNAL_SERVER_ERROR | BAD_REQUEST.

Inductive Exn :=
| TRPCError (code : TRPCCode) (message : string)
| JsError (message : string).

Definition exn_to_string (e : Exn) : string :=
  match e with
  | TRPCError _ m => "TRPCError: " ++ m
  | JsError m => "Error: " ++ m
  end.

Definition Res (A : Type) : Type := (Exn + A)%type.

Definition M (A : Type) : Type := Store -> Store * Res A.

Definition ret {A} (x : A) : M A := fun s => (s, inr x).

Definition throw {A} (e : Exn) : M A := fun s => (s, inl e).

Definition bind {A B} (m : M A) (k : A -> M B) : M B :=
  fun s => match m s with
           | (s', inr x) => k x s'
           | (s', inl e) => (s', inl e)
           end.

Definition try_catch {A} (m : M A) (h : Exn -> M A) : M A :=
  fun s => match m s with
           | (s', inr x) => (s', inr x)
           | (s', inl e) => h e s'
           end.

(** A query reads the store and may fail; it changes nothing. *)
Definition query {A} (q : Store -> Res A) : M A := fun s => (s, q s).

Notation "x <- m ;; k" := (bind m (fun x => k))
  (at level 100, m at next level, right associativity).

(** ** The query builder *)

(** What the store client hands back: [data], [error] and [count]. *)
Record PgResult (A : Type) := mkPg {
  data : option A;
  error : option string;
  count : option Z
}.
Arguments mkPg {A}.
Arguments data {A}.
Arguments error {A}.
Arguments count {A}.

Definition no_single_row : string :=
  "JSON object requested, multiple (or no) rows returned".

(** [.single()]: exactly one row, anything else is an error. *)
Definition single {A} (rows : list A) : PgResult A :=
  match rows with
  | [x] => mkPg (Some x) None None
  | _ => mkPg None (Some no_single_row) None
  end.

(** [.maybeSingle()]: no row is [null] without an error. *)
Definition maybeSingle {A} (rows : list A) : PgResult A :=
  match rows with
  | [] => mkPg None None None
  | [x] => mkPg (Some x) None None
  | _ => mkPg None (Some no_single_row) None
  end.

(** [.limit(n)] *)
Definition limit {A} (n : nat) (rows : list A) : list A := firstn n rows.

(** [.order(...)]: a stable insertion sort along a boolean order. *)
Section Order.
Context {A : Type} (leb : A -> A -> bool).

Fixpoint insert_row (x : A) (l : list A) : list A :=
  match l with
  | [] => [x]
  | y :: l' => if leb x y then x :: l else y :: insert_row x l'
  end.

Fixpoint order (l : list A) : list A :=
  match l with
  | [] => []
  | x :: l' => insert_row x (order l')
  end.
End Order.

Definition by_id_asc (a b : Assignment.t) : bool :=
  (Assignment.id a <=? Assignment.id b)%Z.

Definition by_seq_pos_asc (a b : Assignment.t) : bool :=
  (Assignment.seq_pos a <=? Assignment.seq_pos b)%Z.

(** [.order("task_id", desc).order("seq_pos", asc)] *)
Definition by_task_desc_seq_asc (a b : Assignment.t) : bool :=
  (Assignment.task_id b <? Assignment.task_id a)%Z
  || ((Assignment.task_id a =? Assignment.task_id b)%Z
      && (Assignment.seq_pos a <=? Assignment.seq_pos b)%Z).

(** JavaScript truthiness of a string and of a number. *)
Definition truthy_string (s : string) : bool := negb (bool_decide (s = "")).
Definition truthy_nat (n : nat) : bool := negb (n =? 0)%nat.
Definition truthy_Z (n : Z) : bool := negb (n =? 0)%Z.

(** ** External collaborators

    The identity provider, the mail provider, the runtime configuration and
    the store's refusal of a row update are outside the routers; they are
    the fields of an environment. *)
Record Env := mkEnv {
  (** [auth.admin.inviteUserByEmail]: an error message or the new user's id *)
  inviteUserByEmail : string -> Z -> string + string;
  (** [useRuntimeConfig().mailtrapToken] *)
  mailtrapToken : option string;
  (** [mailClient.send(...).success] for a recipient *)
  mail_success : string -> bool;
  (** the error, if any, of updating [annotator_id] of an assignment row *)
  update_error : Z -> option string -> option string
}.

(** ** assignment.router.ts *)

Definition internal {A} (m : string) : Res A :=
  inl (TRPCError INTERNAL_SERVER_ERROR m).

Definition of_task (task_id : Z) (a : Assignment.t) : bool :=
  bool_decide (Assignment.task_id a = task_id).

Definition of_annotator (annotator_id : string) (a : Assignment.t) : bool :=
  bool_decide (Assignment.annotator_id a = Some annotator_id).

Definition is_pending (a : Assignment.t) : bool :=
  bool_decide (Assignment.status a = PENDING).

Definition findAssignmentsByTask (task_id : Z) (s : Store)
  : Res (list Assignment.t) :=
  let r := order by_id_asc (List.filter (of_task task_id) (assignments s)) in
  inr r.

(** Each optional filter is applied only when its value is truthy: an
    absent value, the empty string and the number 0 all skip it. *)
Definition findAssignmentsByTaskAndUser
    (annotator_id : option string) (annotator_number : option Z)
    (task_id : Z) (s : Store) : Res (list Assignment.t) :=
  let q0 := List.filter (of_task task_id) (assignments s) in
  let q1 :=
    match annotator_id with
    | Some u => if truthy_string u then List.filter (of_annotator u) q0 else q0
    | None => q0
    end in
  let q2 :=
    match annotator_number with
    | Some n =>
        if truthy_Z n
        then List.filter
               (fun a => bool_decide (Assignment.annotator_number a = n)) q1
        else q1
    | None => q1
    end in
  inr (order by_id_asc q2).

Definition findNextAssignmentByUser (user_id : string) (s : Store)
  : Res (option Assignment.t) :=
  let r :=
    maybeSingle
      (limit 1
         (order by_task_desc_seq_asc
            (List.filter is_pending
               (List.filter (of_annotator user_id) (assignments s))))) in
  match error r with
  | Some m => internal ("Error in findNextAssignmentByUser: " ++ m)
  | None => inr (data r)
  end.

Record NextTotal := mkNextTotal { next : Z; total : Z }.

(** [select("*", {count: "exact", head: true})]: the count and no rows. *)
Definition select_count {A} (rows : list A) : PgResult unit :=
  mkPg None None (Some (Z.of_nat (length rows))).

Definition countAssignmentsByUserAndTask
    (annotator_id : string) (task_id : Z) (s : Store) : Res NextTotal :=
  let r_next :=
    maybeSingle
      (limit 1
         (map Assignment.seq_pos
            (order by_seq_pos_asc
               (List.filter is_pending
                  (List.filter (of_task task_id)
                     (List.filter (of_annotator annotator_id)
                        (assignments s))))))) in
  let r_total :=
    select_count
      (List.filter (of_task task_id)
         (List.filter (of_annotator annotator_id) (assignments s))) in
  match error r_next with
  | Some m => internal ("Error in 1 countAssignmentsByUserAndTask: " ++ m)
  | None =>
      match error r_total with
      | Some m => internal ("Error in 2 countAssignmentsByUserAndTask: " ++ m)
      | None =>
          inr {| next := match data r_next with
                         | Some seq_pos => seq_pos
                         | None => (default 0 (count r_total) + 1)%Z
                         end;
                 total := default 0%Z (count r_total) |}
      end
  end.

(** Modelled from the spec: the stored procedure [next_random_assignment] is
    not part of the sources.  It picks one row among the annotator's pending
    assignments of the task, with an implementation-defined tie-break (here
    the index [choose pending], reduced modulo the number of pending rows),
    and yields no row when nothing is pending. *)
Definition next_random_assignment
    (choose : list Assignment.t -> nat) (a_id : string) (t_id : Z)
    (s : Store) : list Assignment.t :=
  let pending :=
    List.filter is_pending
      (List.filter (of_task t_id)
         (List.filter (of_annotator a_id) (assignments s))) in
  match pending !! (choose pending mod length pending)%nat with
  | Some a => [a]
  | None => []
  end.

Definition findNextAssignmentsByUserAndTask
    (choose : list Assignment.t -> nat) (annotator_id : string) (task_id : Z)
    (s : Store) : Res (option Assignment.t) :=
  let r := single (next_random_assignment choose annotator_id task_id s) in
  match error r with
  | Some m => internal ("Error in findNextAssignmentsByUserAndTask: " ++ m)
  | None => inr (data r)
  end.

(** A key of an object as a caller writes it: left out ([undefined]),
    [null], or a value. *)
Inductive JsField (A : Type) : Type :=
| Absent : JsField A
| Null : JsField A
| Given (v : A) : JsField A.

Arguments Absent {A}.
Arguments Null {A}.
Arguments Given {A} v.

(** What reading a key of a plain object gives: the number stored under it,
    a member inherited from [Object.prototype], or [undefined]. *)
Inductive JsProperty := Own (z : Z) | Inherited | Undefined.

(** An element of the array that the schema of [createMany] declares. *)
Module CreateManyRow.
Record t := mk {
  annotator_id : JsField string;
  task_id : JsField Z;
  document_id : JsField Z;
  status : JsField AssignmentStatuses;
  seq_pos : JsField Z;
  difficulty_rating : JsField Z;
  annotator_number : JsField Z
}.
End CreateManyRow.

(** An element of [assignments] in the object that [task.router.ts] hands
    to [createMany]; only [mergeTasks] writes a [task_id] into it. *)
Module AssignmentFields.
Record t := mk {
  annotator_id : option string;
  annotator_number : Z;
  document_id : JsProperty;
  seq_pos : Z;
  status : AssignmentStatuses;
  difficulty_rating : Z;
  origin : Origins;
  task_id : option Z
}.
End AssignmentFields.

(** What a caller hands to [createMany]: an array, as its schema declares,
    or the object [{task_id, assignments}] of [task.router.ts]. *)
Inductive CreateManyInput :=
| InputArray (rows : list CreateManyRow.t)
| InputObject (task_id : Z) (assignments : list AssignmentFields.t).

(** A row of the array after the schema. *)
Module ParsedRow.
Record t := mk {
  annotator_id : option string;
  task_id : Z;
  document_id : Z;
  status : option AssignmentStatuses;
  seq_pos : option Z;
  difficulty_rating : option Z;
  annotator_number : option Z
}.
End ParsedRow.

(** An assignment joined with its document row. *)
Module RichAssignment.
Record t := mk {
  assignment : Assignment.t;
  documents : option Document.t
}.
End RichAssignment.

Fixpoint number_from {A B} (f : Z -> A -> B) (n : Z) (l : list A) : list B :=
  match l with
  | [] => []
  | x :: l' => f n x :: number_from f (n + 1)%Z l'
  end.

Fixpoint all_some {A} (l : list (option A)) : option (list A) :=
  match l with
  | [] => Some []
  | Some x :: l' => match all_some l' with
                    | Some r => Some (x :: r)
                    | None => None
                    end
  | None :: _ => None
  end.

(** [.optional()]: the key is left out or holds a value; [null] does not
    pass. *)
Definition optional {A} (f : JsField A) : option (option A) :=
  match f with
  | Absent => Some None
  | Given v => Some (Some v)
  | Null => None
  end.

(** A key without [.optional()] holds a value. *)
Definition required {A} (f : JsField A) : option A :=
  match f with
  | Given v => Some v
  | _ => None
  end.

Definition parse_row (r : CreateManyRow.t) : option ParsedRow.t :=
  match optional (CreateManyRow.annotator_id r),
        required (CreateManyRow.task_id r),
        required (CreateManyRow.document_id r),
        optional (CreateManyRow.status r),
        optional (CreateManyRow.seq_pos r),
        optional (CreateManyRow.difficulty_rating r),
        optional (CreateManyRow.annotator_number r) with
  | Some a, Some t, Some d, Some st, Some sp, Some dr, Some an =>
      Some (ParsedRow.mk a t d st sp dr an)
  | _, _, _, _, _, _, _ => None
  end.

(** The schema of [createMany], [z.array(z.object({...}))]: an object is
    not an array, and an array passes when each of its rows does. *)
Definition createMany_schema (input : CreateManyInput)
  : option (list ParsedRow.t) :=
  match input with
  | InputArray rows => all_some (map parse_row rows)
  | InputObject _ _ => None
  end.

(** What [createMany] takes from outside the sources: the text the schema
    prints for an input it refuses, the values the table gives to the columns
    an insert leaves out (the migration has one of them, 0 for
    [annotator_number]), and the store's refusal of a batch. *)
Record CreateManyEnv := mkCreateManyEnv {
  schema_message : CreateManyInput -> string;
  default_annotator_id : option string;
  default_status : AssignmentStatuses;
  default_seq_pos : Z;
  default_difficulty_rating : Z;
  default_origin : Origins;
  insert_error : Store -> list ParsedRow.t -> option string
}.

(** The row the table keeps for a parsed row under the identifier [n]. *)
Definition inserted_row (cenv : CreateManyEnv) (n : Z) (f : ParsedRow.t)
  : Assignment.t :=
  Assignment.mk n
    (match ParsedRow.annotator_id f with
     | Some a => Some a
     | None => default_annotator_id cenv
     end)
    (ParsedRow.task_id f) (ParsedRow.document_id f)
    (default (default_status cenv) (ParsedRow.status f))
    (default (default_seq_pos cenv) (ParsedRow.seq_pos f))
    (default (default_difficulty_rating cenv) (ParsedRow.difficulty_rating f))
    (default 0%Z (ParsedRow.annotator_number f))
    (default_origin cenv).

(** [assignment.createMany]: an input that does not pass the schema is
    refused before the resolver runs; otherwise the rows are inserted in
    order with fresh identifiers and returned in that order. *)
Definition assignment_createMany (cenv : CreateManyEnv)
    (input : CreateManyInput) : M (list Assignment.t) :=
  fun s =>
    match createMany_schema input with
    | None => (s, inl (TRPCError BAD_REQUEST (schema_message cenv input)))
    | Some parsed =>
        match insert_error cenv s parsed with
        | Some m => (s, internal ("Error in createMany: " ++ m))
        | None =>
            let rows :=
              number_from (inserted_row cenv) (next_assignment_id s) parsed in
            (emit (EInsertAssignments (map Assignment.id rows))
               (set_assignments s (assignments s ++ rows)
                  (next_assignment_id s + Z.of_nat (length parsed))%Z),
             inr rows)
        end
    end.

(** Modelled from the spec: [findRichAssignmentsByTask] is not part of the
    sources; it fetches the task's assignments, each joined with its document
    row. *)
Definition findRichAssignmentsByTask (task_id : Z) (s : Store)
  : Res (list RichAssignment.t) :=
  inr (map
         (fun a =>
            RichAssignment.mk a
              (head (List.filter
                       (fun d => bool_decide
                                   (Document.id d = Assignment.document_id a))
                       (documents s))))
         (order by_id_asc (List.filter (of_task task_id) (assignments s)))).

(** Modelled from the spec: [annotation.findAnnotationsByTask] is not part of
    the sources; it fetches the annotations owned by the task's assignments. *)
Definition findAnnotationsByTask (task_id : Z) (s : Store)
  : Res (list Annotation.t) :=
  inr (List.filter
         (fun an =>
            existsb
              (fun a => bool_decide
                          (Assignment.id a = Annotation.assignment_id an)
                        && of_task task_id a)
              (assignments s))
         (annotations s)).

(** Modelled from the spec: [relation.findRelationsByTask] is not part of the
    sources; it fetches the relations that leave an annotation of the task. *)
Definition findRelationsByTask (task_id : Z) (s : Store)
  : Res (list Relation.t) :=
  match findAnnotationsByTask task_id s with
  | inl e => inl e
  | inr anns =>
      inr (List.filter
             (fun r =>
                existsb
                  (fun an => bool_decide
                               (Annotation.id an = Relation.from_id r))
                  anns)
             (annotation_relations s))
  end.

Module AnnotationFields.
Record t := mk {
  assignment_id : option Z;
  label : string;
  start_index : option Z;
  end_index : option Z;
  text : string;
  ls_id : string;
  origin : Origins;
  confidence_rating : Z
}.
End AnnotationFields.

Module RelationFields.
Record t := mk {
  direction : string;
  from_id : option Z;
  to_id : option Z;
  labels : list string;
  ls_from : string;
  ls_to : string
}.
End RelationFields.

(** Modelled from the spec: [annotation.createMany] is not part of the
    sources.  A batch holding an undefined [assignment_id] is rejected before
    anything is written; otherwise the rows are inserted in order with fresh
    identifiers and returned in that order. *)
Definition annotation_createMany (fields : list AnnotationFields.t)
  : M (list Annotation.t) :=
  fun s =>
    match all_some (map AnnotationFields.assignment_id fields) with
    | None =>
        (s, inl (TRPCError BAD_REQUEST
                   "Input validation failed in annotation.createMany"))
    | Some _ =>
        let rows :=
          number_from
            (fun n f =>
               Annotation.mk n
                 (default 0%Z (AnnotationFields.assignment_id f))
                 (AnnotationFields.label f) (AnnotationFields.start_index f)
                 (AnnotationFields.end_index f) (AnnotationFields.text f)
                 (AnnotationFields.ls_id f) (AnnotationFields.origin f)
                 (AnnotationFields.confidence_rating f))
            (next_annotation_id s) fields in
        (emit (EInsertAnnotations (map Annotation.id rows))
           (set_annotations s (annotations s ++ rows)
              (next_annotation_id s + Z.of_nat (length fields))%Z),
         inr rows)
    end.

(** Modelled from the spec: [relation.createMany] is not part of the
    sources; same contract as [annotation_createMany], on [from_id] and
    [to_id]. *)
Definition relation_createMany (fields : list RelationFields.t)
  : M (list Relation.t) :=
  fun s =>
    match all_some (map RelationFields.from_id fields),
          all_some (map RelationFields.to_id fields) with
    | Some _, Some _ =>
        let rows :=
          number_from
            (fun n f =>
               Relation.mk n
                 (default 0%Z (RelationFields.from_id f))
                 (default 0%Z (RelationFields.to_id f))
                 (RelationFields.ls_from f) (RelationFields.ls_to f)
                 (RelationFields.direction f) (RelationFields.labels f))
            (next_relation_id s) fields in
        (emit (EInsertRelations (map Relation.id rows))
           (set_relations s (annotation_relations s ++ rows)
              (next_relation_id s + Z.of_nat (length fields))%Z),
         inr rows)
    | _, _ =>
        (s, inl (TRPCError BAD_REQUEST
                   "Input validation failed in relation.createMany"))
    end.

(** ** task.router.ts *)

(** [tasks.findById]: no count is requested, so [count === 0] never holds. *)
Definition task_findById (id : Z) (s : Store) : Res (option Task.t) :=
  let r := single (List.filter (fun t => bool_decide (Task.id t = id))
                     (tasks s)) in
  if bool_decide (count r = Some 0%Z) then inl (TRPCError NOT_FOUND "")
  else
    match error r with
    | Some m => internal ("Error in tasks.findById: " ++ m)
    | None => inr (data r)
    end.

(** [tasks.create]: the schema keeps the task fields and drops the
    identifier; a [null] input does not pass it. *)
Definition task_create (input : option Task.t) : M Task.t :=
  fun s =>
    match input with
    | None =>
        (s, inl (TRPCError BAD_REQUEST "Input validation failed in tasks.create"))
    | Some f =>
        let row :=
          Task.mk (next_task_id s) (Task.name f) (Task.desc f)
            (Task.project_id f) (Task.labelset_id f) (Task.ann_guidelines f)
            (Task.ml_model_id f) (Task.annotation_level f) in
        (emit (EInsertTask (Task.id row))
           (set_tasks s (tasks s ++ [row]) (next_task_id s + 1)%Z),
         inr row)
    end.

(** The SQL function [get_all_annotators_from_task]: the task's assignments
    left-joined with [users], grouped by user and slot number, ordered by
    slot number. *)
Definition annotator_rows (s : Store) (a : Assignment.t) : list Annotator.t :=
  let null_row := Annotator.mk None None None (Assignment.annotator_number a) in
  match List.filter
          (fun u => bool_decide (Assignment.annotator_id a = Some (User.id u)))
          (users s) with
  | [] => [null_row]
  | us =>
      map (fun u => Annotator.mk (Some (User.id u)) (Some (User.email u))
                      (User.role u) (Assignment.annotator_number a)) us
  end.

Fixpoint group_by {A K} `{EqDecision K} (key : A -> K) (seen : list K)
    (l : list A) : list A :=
  match l with
  | [] => []
  | x :: l' =>
      if bool_decide (key x ∈ seen) then group_by key seen l'
      else x :: group_by key (key x :: seen) l'
  end.

Definition get_all_annotators_from_task (t_id : Z) (s : Store)
  : list Annotator.t :=
  let joined :=
    flat_map
      (fun t =>
         flat_map
           (fun a =>
              if bool_decide (Task.id t = Assignment.task_id a)
                 && bool_decide (Task.id t = t_id)
              then annotator_rows s a else [])
           (assignments s))
      (tasks s) in
  order (fun x y => (Annotator.annotator_number x
                     <=? Annotator.annotator_number y)%Z)
    (group_by (fun r => (Annotator.id r, Annotator.annotator_number r)) []
       joined).

Definition getAllAnnotatorsFromTask (task_id : Z) (s : Store)
  : Res (list Annotator.t) :=
  inr (get_all_annotators_from_task task_id s).

Record Stats := mkStats { success : nat; failed : nat }.

Record Reassigned := mkReassigned {
  message : string;
  annotators : list Annotator.t
}.

(** The four branches over the counters, and the throw after them. *)
Definition classify (stats : Stats) (flat_annotators : list Annotator.t)
  : Res Reassigned :=
  if truthy_nat (success stats) && negb (truthy_nat (failed stats)) then
    inr (mkReassigned "All the assignments have been reassigned"
           flat_annotators)
  else if negb (truthy_nat (success stats))
          && negb (truthy_nat (failed stats)) then
    inr (mkReassigned "No changes have been made" flat_annotators)
  else if truthy_nat (success stats) && truthy_nat (failed stats) then
    internal "Some assignment updates failed"
  else if negb (truthy_nat (success stats)) && truthy_nat (failed stats) then
    internal "All assignment updates failed"
  else internal "Undefined case".

(** [x != y] for a string [x] and a string-or-null [y]. *)
Definition loose_neq (x : string) (y : option string) : bool :=
  negb (bool_decide (y = Some x)).

(** [dic[olds[index]] = n] for every [n] of [news] at its [index]. *)
Fixpoint index_ids (olds news : list Z) (dic : gmap Z Z) : Res (gmap Z Z) :=
  match news with
  | [] => inr dic
  | n :: news' =>
      match olds with
      | [] => inl (JsError "Cannot read properties of undefined (reading 'id')")
      | o :: olds' => index_ids olds' news' (<[o := n]> dic)
      end
  end.

(** The key an optional document's name makes in an object. *)
Definition js_key (documents : option Document.t) : string :=
  match documents with
  | Some d => Document.name d
  | None => "undefined"
  end.

Section Procedures.
Variable env : Env.

(** [assignment.update] with [updates = {annotator_id}].  A request whose
    result is not a single row is rolled back by the store. *)
Definition assignment_update (id : Z) (annotator_id : option string)
  : M (option Assignment.t) :=
  fun s =>
    let hit := fun a : Assignment.t => bool_decide (Assignment.id a = id) in
    let r :=
      match update_error env id annotator_id with
      | Some m => mkPg None (Some m) None
      | None =>
          single (map (Assignment.with_annotator_id annotator_id)
                    (List.filter hit (assignments s)))
      end in
    match error r with
    | Some m => (s, internal ("Error in update: " ++ m))
    | None =>
        (emit (EUpdateAssignment id annotator_id)
           (set_assignments s
              (map (fun a => if hit a
                             then Assignment.with_annotator_id annotator_id a
                             else a)
                 (assignments s))
              (next_assignment_id s)),
         inr (data r))
    end.

(** [assignUserToTask]: invite the email when no user has it, otherwise
    tag the user's account and send a mail.  A successful invitation makes
    the trigger [handle_new_user] insert the user's row. *)
Definition assignUserToTask (email : string) (task_id : Z) : M string :=
  fun s =>
    let email_found :=
      maybeSingle
        (List.filter (fun u => bool_decide (User.email u = email))
           (users s)) in
    match data email_found with
    | None =>
        match inviteUserByEmail env email task_id with
        | inl m => (s, internal ("Error inviting: " ++ m))
        | inr user_id =>
            let s' :=
              emit (EInviteUser email task_id)
                (set_users s (users s ++ [User.mk user_id email None])) in
            if truthy_string user_id
            then (s', inr user_id)
            else (s', internal
                        "Error retrieving or inviting the specified user")
        end
    | Some u =>
        let user_id := User.id u in
        let user_email := User.email u in
        let s1 := emit (EUpdateUserMetadata user_id task_id) s in
        match mailtrapToken env with
        | None => (s1, inl (JsError "Mailtrap API token not set"))
        | Some tok =>
            if truthy_string tok
            then
              let s2 := emit (ESendMail user_email) s1 in
              if mail_success env user_email
              then
                if truthy_string user_id
                then (s2, inr user_id)
                else (s2, internal
                            "Error retrieving or inviting the specified user")
              else (s2, internal
                "There was an error sending an email to the invited user.")
            else (s1, inl (JsError "Mailtrap API token not set"))
        end
    end.

(** The inner loop of [updateAssignees]: one update per fetched
    assignment, a failure caught and counted. *)
Fixpoint rebind (assignments : list Assignment.t)
    (new_user : option string) (stats : Stats) : M Stats :=
  match assignments with
  | [] => ret stats
  | ass :: rest =>
      stats' <-
        try_catch
          (_ <- assignment_update (Assignment.id ass) new_user ;;
           ret (mkStats (S (success stats)) (failed stats)))
          (fun _ => ret (mkStats (success stats) (S (failed stats)))) ;;
      rebind rest new_user stats'
  end.

(** The body of the outer loop for the index [i] and its email. *)
Definition reassign_slot (task_id : Z) (len : nat) (i : nat)
    (new_email : string) (st : list Annotator.t * Stats)
  : M (list Annotator.t * Stats) :=
  match fst st !! i with
  | None =>
      throw (JsError "Cannot read properties of undefined (reading 'email')")
  | Some a =>
      if loose_neq new_email (Annotator.email a) then
        assignments <-
          query (findAssignmentsByTaskAndUser None
                   (Some (Annotator.annotator_number a)) task_id) ;;
        new_user <-
          (if truthy_string new_email && truthy_nat len
           then u <- assignUserToTask new_email task_id ;; ret (Some u)
           else ret None) ;;
        stats' <- rebind assignments new_user (snd st) ;;
        ret (<[i := Annotator.with_email (Some new_email) a]> (fst st),
             stats')
      else ret st
  end.

Fixpoint reassign_from (task_id : Z) (len : nat) (i : nat)
    (emails : list string) (st : list Annotator.t * Stats)
  : M (list Annotator.t * Stats) :=
  match emails with
  | [] => ret st
  | e :: rest =>
      st' <- reassign_slot task_id len i e st ;;
      reassign_from task_id len (S i) rest st'
  end.

Definition updateAssignees (task_id : Z) (new_emails : list string)
  : M Reassigned :=
  annotators <- query (getAllAnnotatorsFromTask task_id) ;;
  st <- reassign_from task_id (length new_emails) 0 new_emails
          (annotators, mkStats 0 0) ;;
  fun s => (s, classify (snd st) (fst st)).
End Procedures.

Definition replicateTask (cenv : CreateManyEnv) (task_id : Z) : M Task.t :=
  task <- query (task_findById task_id) ;;
  new_task <- task_create task ;;
  assignments <- query (findAssignmentsByTask task_id) ;;
  new_assignments <-
    assignment_createMany cenv
      (InputObject (Task.id new_task)
         (map (fun a =>
                 AssignmentFields.mk (Assignment.annotator_id a)
                   (Assignment.annotator_number a)
                   (Own (Assignment.document_id a)) (Assignment.seq_pos a)
                   (Assignment.status a) (Assignment.difficulty_rating a)
                   (Assignment.origin a) None)
            assignments)) ;;
  dicAssignments <-
    query (fun _ => index_ids (map Assignment.id assignments)
                      (map Assignment.id new_assignments) ∅) ;;
  annotations <- query (findAnnotationsByTask task_id) ;;
  new_annotations <-
    annotation_createMany
      (map (fun a =>
              AnnotationFields.mk
                (dicAssignments !! Annotation.assignment_id a)
                (Annotation.label a) (Annotation.start_index a)
                (Annotation.end_index a) (Annotation.text a)
                (Annotation.ls_id a) (Annotation.origin a)
                (Annotation.confidence_rating a))
         annotations) ;;
  relations <- query (findRelationsByTask task_id) ;;
  dicAnnotations <-
    query (fun _ => index_ids (map Annotation.id annotations)
                      (map Annotation.id new_annotations) ∅) ;;
  new_relations <-
    relation_createMany
      (map (fun a =>
              RelationFields.mk (Relation.direction a)
                (dicAnnotations !! Relation.from_id a)
                (dicAnnotations !! Relation.to_id a)
                (Relation.labels a) (Relation.ls_from a) (Relation.ls_to a))
         relations) ;;
  ret new_task.

(** The names every plain object inherits from [Object.prototype]. *)
Definition Object_prototype_keys : list string :=
  ["constructor"; "__defineGetter__"; "__defineSetter__"; "hasOwnProperty";
   "__lookupGetter__"; "__lookupSetter__"; "isPrototypeOf";
   "propertyIsEnumerable"; "toString"; "valueOf"; "__proto__";
   "toLocaleString"].

(** [key in obj] for a plain object with the own numbers [obj]: own keys
    and inherited names. *)
Definition js_in (key : string) (obj : gmap string Z) : bool :=
  bool_decide (is_Some (obj !! key))
  || bool_decide (key ∈ Object_prototype_keys).

(** [obj[key]] for a plain object with the own numbers [obj]. *)
Definition js_get (obj : gmap string Z) (key : string) : JsProperty :=
  match obj !! key with
  | Some z => Own z
  | None =>
      if bool_decide (key ∈ Object_prototype_keys) then Inherited
      else Undefined
  end.

(** [name2Id]: the own properties of the object after the loop over the
    original assignments; a name is stored when it is not [in] the object
    yet. *)
Definition name2Id_of (originalAssignments : list RichAssignment.t)
  : gmap string Z :=
  fold_left
    (fun (name2Id : gmap string Z) a =>
       let k := js_key (RichAssignment.documents a) in
       if js_in k name2Id then name2Id
       else
         <[k := Assignment.document_id (RichAssignment.assignment a)]>
           name2Id)
    originalAssignments ∅.

Definition mergeTasks (cenv : CreateManyEnv)
    (originalTaskId similarTaskId : Z) : M Task.t :=
  try_catch
    (mergedTask <- replicateTask cenv originalTaskId ;;
     originalAssignments <- query (findRichAssignmentsByTask originalTaskId) ;;
     similarAssignments <- query (findRichAssignmentsByTask similarTaskId) ;;
     let name2Id := name2Id_of originalAssignments in
     let newAssignments :=
       map (fun r =>
              let a := RichAssignment.assignment r in
              AssignmentFields.mk (Assignment.annotator_id a)
                (Assignment.annotator_number a)
                (js_get name2Id (js_key (RichAssignment.documents r)))
                (Assignment.seq_pos a) (Assignment.status a)
                (Assignment.difficulty_rating a) (Assignment.origin a)
                (Some (Task.id mergedTask)))
         similarAssignments in
     _ <- assignment_createMany cenv
            (InputObject (Task.id mergedTask) newAssignments) ;;
     ret mergedTask)
    (fun error =>
       throw (TRPCError INTERNAL_SERVER_ERROR
                ("Error in mergeTasks: " ++ exn_to_string error))).

(** * The other procedures

    Relation conversion, the annotation component's passes over the
    widget's result, the remaining queries of the routers, the other SQL
    functions of the migration and the annotators' view. *)

(** ** services/data/annotation_relations.ts *)

(** The serialized relation of the annotation widget.  The type
    [LSSerializedRelation] of [~/types/relation] is not part of the sources;
    its fields are the ones the two converters read and write. *)
Module LSSerializedRelation.
Record t := mk {
  from_id : string;
  to_id : string;
  labels : list string;
  direction : string;
  type : string
}.
End LSSerializedRelation.

(** [Omit<AnnotationRelation, "id">] *)
Module NewRelation.
Record t := mk {
  ls_from : string;
  ls_to : string;
  direction : string;
  labels : list string;
  from_id : Z;
  to_id : Z
}.
End NewRelation.

Definition convert_ls2db (rel : LSSerializedRelation.t) (from_id to_id : Z)
  : NewRelation.t :=
  NewRelation.mk (LSSerializedRelation.from_id rel)
    (LSSerializedRelation.to_id rel) (LSSerializedRelation.direction rel)
    (LSSerializedRelation.labels rel) from_id to_id.

Definition convert_db2ls (rel : Relation.t) : LSSerializedRelation.t :=
  LSSerializedRelation.mk (Relation.ls_from rel) (Relation.ls_to rel)
    (Relation.labels rel) (Relation.direction rel) "relation".

(** [relationDataService.find]: one select per annotation, on [from_id], the
    results pushed in turn. *)
Fixpoint relation_find (anns : list Annotation.t) (s : Store)
  : list Relation.t :=
  match anns with
  | [] => []
  | a :: rest =>
      app (List.filter
             (fun r => bool_decide (Relation.from_id r = Annotation.id a))
             (annotation_relations s))
          (relation_find rest s)
  end.

(** ** The annotation component (save, confidences, relation ends) *)

(** An entry of the widget's serialized result: a labelled region, a rating
    or a relation; fields an entry does not have are [undefined]. *)
Module LSItem.
Record t := mk {
  id : option string;
  from_name : option string;
  type : option string;
  rating : option Z;
  confidence_rating : option Z;
  from_id : option string;
  to_id : option string
}.

Definition with_confidence_rating (v : option Z) (x : t) : t :=
  mk (id x) (from_name x) (type x) (rating x) v (from_id x) (to_id x).
End LSItem.

(** [ls_anns[ls_anns.length - 1].value.confidence_rating = v] *)
Definition set_last_confidence (v : option Z) (ls_anns : list LSItem.t)
  : list LSItem.t :=
  match List.rev ls_anns with
  | [] => ls_anns
  | last :: front =>
      app (List.rev front) [LSItem.with_confidence_rating v last]
  end.

(** The first loop of [updateAnnotationsAndRelations]; [document_level]
    stands for [props.annotation_level == AnnotationLevels.DOCUMENT]. *)
Fixpoint collect_ls_anns (document_level : bool) (assignmentRating : Z)
    (serializedAnnotations ls_anns : list LSItem.t) : list LSItem.t :=
  match serializedAnnotations with
  | [] => ls_anns
  | ann :: rest =>
      let ls_anns' :=
        if bool_decide (LSItem.from_name ann = Some "label")
        then app ls_anns [ann]
        else
          if (0 <? length ls_anns)%nat then
            if negb document_level then
              if bool_decide (LSItem.from_name ann = Some "ann_confidence")
              then
                if bool_decide (LSItem.id ann = LSItem.id (List.last ls_anns ann))
                then set_last_confidence (LSItem.rating ann) ls_anns
                else ls_anns
              else ls_anns
            else set_last_confidence (Some assignmentRating) ls_anns
          else ls_anns in
      collect_ls_anns document_level assignmentRating rest ls_anns'
  end.

(** The loop over the created annotations that finds both ends of a
    relation: the last annotation with the widget identifier wins. *)
Fixpoint relation_ends_from (created_anns : list Annotation.t)
    (rel : LSSerializedRelation.t) (from to : Z) : Z * Z :=
  match created_anns with
  | [] => (from, to)
  | a :: rest =>
      let from' :=
        if bool_decide (Annotation.ls_id a = LSSerializedRelation.from_id rel)
        then Annotation.id a else from in
      let to' :=
        if bool_decide (Annotation.ls_id a = LSSerializedRelation.to_id rel)
        then Annotation.id a else to in
      relation_ends_from rest rel from' to'
  end.

(** The ends [from] and [to] handed to [relation.create], [-1] for an end
    that no created annotation has. *)
Definition relation_ends (created_anns : list Annotation.t)
    (rel : LSSerializedRelation.t) : Z * Z :=
  relation_ends_from created_anns rel (-1)%Z (-1)%Z.

(** ** assignment.router.ts, the other queries *)

(** [assignment.findById]: no count is requested, so [count === 0] never
    holds. *)
Definition assignment_findById (id : Z) (s : Store)
  : Res (option Assignment.t) :=
  let r := single (List.filter (fun a => bool_decide (Assignment.id a = id))
                     (assignments s)) in
  if bool_decide (count r = Some 0%Z) then inl (TRPCError NOT_FOUND "")
  else
    match error r with
    | Some m => internal ("Error in find: " ++ m)
    | None => inr (data r)
    end.

Definition findAssignmentsByUserTaskSeq
    (annotator_id : string) (task_id seq_pos : Z) (s : Store)
  : Res (option Assignment.t) :=
  let r :=
    single
      (List.filter (fun a => bool_decide (Assignment.seq_pos a = seq_pos))
         (List.filter (of_annotator annotator_id)
            (List.filter (of_task task_id) (assignments s)))) in
  match error r with
  | Some m => internal ("Error in findAssignmentsByUserTaskSeq: " ++ m)
  | None => inr (data r)
  end.

(** [getCountByProject]: the assignments inner-joined with their task, the
    task's project being [p_id], counted. *)
Definition getCountByProject (p_id : Z) (s : Store) : Res (option Z) :=
  let rows :=
    flat_map
      (fun a =>
         map (fun t => (a, t))
           (List.filter
              (fun t => bool_decide (Task.id t = Assignment.task_id a)
                        && bool_decide (Task.project_id t = p_id))
              (tasks s)))
      (assignments s) in
  inr (Some (Z.of_nat (length rows))).

(** ** The SQL functions of the migration *)

(** [get_all_docs_from_task]: the documents joined with the task's
    assignments, grouped by identifier, ordered by identifier. *)
Definition get_all_docs_from_task (t_id : Z) (s : Store) : list Document.t :=
  let joined :=
    flat_map
      (fun d =>
         flat_map
           (fun a =>
              if bool_decide (Assignment.document_id a = Document.id d)
                 && bool_decide (Assignment.task_id a = t_id)
              then [d] else [])
           (assignments s))
      (documents s) in
  order (fun x y => (Document.id x <=? Document.id y)%Z)
    (group_by Document.id [] joined).

(** [get_unannotated_documents]: the distinct documents of the task's
    assignments that have no annotation. *)
Definition get_unannotated_documents (task_id_param : Z) (s : Store)
  : list Z :=
  let rows :=
    flat_map
      (fun a =>
         flat_map
           (fun t =>
              if bool_decide (Assignment.task_id a = Task.id t)
                 && bool_decide (Task.id t = task_id_param)
                 && negb (existsb
                            (fun an => bool_decide
                               (Annotation.assignment_id an = Assignment.id a))
                            (annotations s))
              then [Assignment.document_id a] else [])
           (tasks s))
      (assignments s) in
  group_by (fun d : Z => d) [] rows.

(** ** assignment.router.ts, the annotators' view *)

(** A JavaScript number that is an integer or [Infinity]. *)
Inductive JsNumber := Num (z : Z) | Infinity.

(** [Math.min(...l)]: [Infinity] for no argument. *)
Definition Math_min (l : list Z) : JsNumber :=
  fold_right
    (fun z acc =>
       match acc with
       | Infinity => Num z
       | Num m => Num (Z.min z m)
       end)
    Infinity l.

Module DocumentChild.
Record t := mk {
  key : string;
  assignment_id : Z;
  seq_pos : Z;
  document_id : Z;
  document_name : string;
  difficulty_rating : Z;
  status : AssignmentStatuses
}.
End DocumentChild.

Module AnnotatorGroup.
Record t := mk {
  key : string;
  name : string;
  amount_done : nat;
  amount_total : nat;
  next_seq_pos : JsNumber;
  children : list DocumentChild.t
}.
End AnnotatorGroup.

Module DbAnnotator.
Record t := mk {
  annotator_number : Z;
  email : option string;
  annotator_name : string
}.
End DbAnnotator.

Module DbAssignment.
Record t := mk {
  assignment : Assignment.t;
  email : option string;
  document_name : string
}.
End DbAssignment.

#[global] Instance DbAnnotator_eq_dec : EqDecision DbAnnotator.t.
Proof. solve_decision. Defined.

(** [name.replace(/[%_]/g, '')] *)
Definition sanitize (name : string) : string :=
  String.string_of_list_ascii
    (List.filter
       (fun c => negb (Ascii.eqb c "%"%char) && negb (Ascii.eqb c "_"%char))
       (String.list_ascii_of_string name)).

(** [COALESCE(u.email, CONCAT('annotator ', a.annotator_number))] *)
Definition annotator_name_of (email : option string) (annotator_number : Z)
  : string :=
  match email with
  | Some e => e
  | None => "annotator " ++ pretty annotator_number
  end.

(** [LEFT JOIN users AS u ON (a.annotator_id = u.id)]: the emails joined to
    an assignment, one [null] when no user matches. *)
Definition joined_emails (s : Store) (a : Assignment.t) : list (option string) :=
  match List.filter
          (fun u => bool_decide (Assignment.annotator_id a = Some (User.id u)))
          (users s) with
  | [] => [None]
  | us => map (fun u => Some (User.email u)) us
  end.

(** The annotators of a page: distinct rows over the task's assignments,
    filtered by name when the sanitized filter is not empty, ordered by slot
    number, ten a page.  [ilike value pattern] is the store's ILIKE. *)
Definition queryAnnotators (ilike : string -> string -> bool)
    (task_id : Z) (offset : Z) (sanitizedFilter : string) (s : Store)
  : list DbAnnotator.t :=
  let joined :=
    flat_map
      (fun a =>
         map (fun e =>
                DbAnnotator.mk (Assignment.annotator_number a) e
                  (annotator_name_of e (Assignment.annotator_number a)))
           (joined_emails s a))
      (List.filter (of_task task_id) (assignments s)) in
  let filtered :=
    if truthy_string sanitizedFilter
    then List.filter
           (fun r => ilike (DbAnnotator.annotator_name r)
                       ("%" ++ sanitizedFilter ++ "%"))
           joined
    else joined in
  firstn 10
    (skipn (Z.to_nat offset)
       (order (fun x y => (DbAnnotator.annotator_number x
                           <=? DbAnnotator.annotator_number y)%Z)
          (group_by (fun r => r) [] filtered))).

(** The assignments of a slot, inner-joined with their document and
    left-joined with their user. *)
Definition dbAssignments_of (task_id : Z) (annotator_number : Z) (s : Store)
  : list DbAssignment.t :=
  flat_map
    (fun a =>
       flat_map
         (fun d =>
            map (fun e => DbAssignment.mk a e (Document.name d))
              (joined_emails s a))
         (List.filter
            (fun d => bool_decide (Assignment.document_id a = Document.id d))
            (documents s)))
    (List.filter
       (fun a => bool_decide (Assignment.annotator_number a = annotator_number)
                 && of_task task_id a)
       (assignments s)).

(** What the cursor's callback pushes for one annotator row. *)
Definition annotator_group (task_id : Z) (dbAnnotator : DbAnnotator.t)
    (s : Store) : AnnotatorGroup.t :=
  let dbAssignments :=
    dbAssignments_of task_id (DbAnnotator.annotator_number dbAnnotator) s in
  let children :=
    map (fun r =>
           let a := DbAssignment.assignment r in
           DocumentChild.mk ("ass-" ++ pretty (Assignment.id a))
             (Assignment.id a) (Assignment.seq_pos a)
             (Assignment.document_id a) (DbAssignment.document_name r)
             (Assignment.difficulty_rating a) (Assignment.status a))
      dbAssignments in
  AnnotatorGroup.mk
    ("ann-" ++ pretty (DbAnnotator.annotator_number dbAnnotator))
    (DbAnnotator.annotator_name dbAnnotator)
    (length (List.filter
               (fun r => bool_decide
                           (Assignment.status (DbAssignment.assignment r) = DONE))
               dbAssignments))
    (length dbAssignments)
    (Math_min
       (map (fun r => Assignment.seq_pos (DbAssignment.assignment r))
          (List.filter
             (fun r => bool_decide
                         (Assignment.status (DbAssignment.assignment r)
                          = PENDING))
             dbAssignments)))
    children.

Record GroupByAnnotators := mkGroupByAnnotators {
  group_data : list AnnotatorGroup.t;
  group_total : Z
}.

(** [getGroupByAnnotators]; the store refuses a negative OFFSET. *)
Definition getGroupByAnnotators (ilike : string -> string -> bool)
    (task_id page : Z) (filter_name : string) (s : Store)
  : Res GroupByAnnotators :=
  let rowsPerPage := 10%Z in
  let count :=
    length (group_by (fun n : Z => n) []
              (map Assignment.annotator_number
                 (List.filter (of_task task_id) (assignments s)))) in
  let sanitizedFilter := sanitize filter_name in
  let offset := ((page - 1) * rowsPerPage)%Z in
  if (offset <? 0)%Z then inl (JsError "OFFSET must not be negative")
  else
    inr (mkGroupByAnnotators
           (map (fun dbAnnotator => annotator_group task_id dbAnnotator s)
              (queryAnnotators ilike task_id offset sanitizedFilter s))
           (Z.of_nat count)).

(** * Specification-side definitions

    The vocabulary of the statements below: selections of rows, what a
    procedure may change, and concrete stores and environments to evaluate
    the procedures on. *)

Local Open Scope list_scope.

(** ** Selections and predicates *)
(** The rows of an annotator in a task. *)
Definition assignments_of (annotator_id : string) (task_id : Z) (s : Store)
  : list Assignment.t :=
  List.filter (of_task task_id)
    (List.filter (of_annotator annotator_id) (assignments s)).

(** The guards of the four branches, in the order of the source. *)
Definition branch_guards (stats : Stats) : list bool :=
  [ truthy_nat (success stats) && negb (truthy_nat (failed stats));
    negb (truthy_nat (success stats)) && negb (truthy_nat (failed stats));
    truthy_nat (success stats) && truthy_nat (failed stats);
    negb (truthy_nat (success stats)) && truthy_nat (failed stats) ].

(** A committed assignment update. *)
Definition is_update (e : Effect) : bool :=
  match e with
  | EUpdateAssignment _ _ => true
  | _ => false
  end.

(** The number of committed assignment updates in a log. *)
Definition updates_in (l : list Effect) : nat :=
  length (List.filter is_update l).

(** Everything but the assignment rows and the log. *)
Definition same_frame (s s' : Store) : Prop :=
  tasks s' = tasks s /\ annotations s' = annotations s
  /\ annotation_relations s' = annotation_relations s
  /\ documents s' = documents s /\ users s' = users s
  /\ next_task_id s' = next_task_id s
  /\ next_assignment_id s' = next_assignment_id s
  /\ next_annotation_id s' = next_annotation_id s
  /\ next_relation_id s' = next_relation_id s.

(** Whether the store accepts the update of [annotator_id] of [a] to [v]. *)
Definition update_ok (env : Env) (v : option string) (a : Assignment.t)
  : bool :=
  bool_decide (update_error env (Assignment.id a) v = None).

(** The rows after the updates of [l] that the store accepts. *)
Definition rebound (env : Env) (l : list Assignment.t) (v : option string)
    (rows : list Assignment.t) : list Assignment.t :=
  map (fun a =>
         if existsb (fun b => bool_decide (Assignment.id b = Assignment.id a)
                              && update_ok env v b) l
         then Assignment.with_annotator_id v a else a)
    rows.

(** The rows [updateAssignees] fetches for a slot number. *)
Definition slot_rows (task_id n : Z) (s : Store) : list Assignment.t :=
  order by_id_asc
    (if truthy_Z n
     then List.filter (fun a => bool_decide (Assignment.annotator_number a = n))
            (List.filter (of_task task_id) (assignments s))
     else List.filter (of_task task_id) (assignments s)).

(** The error thrown after the four branches of [updateAssignees]. *)
Definition undefined_case : Exn :=
  TRPCError INTERNAL_SERVER_ERROR "Undefined case".

(** [n] has the fields of [o] under the identifier [new_id]. *)
Definition task_copy (new_id : Z) (o n : Task.t) : Prop :=
  n = Task.mk new_id (Task.name o) (Task.desc o) (Task.project_id o)
        (Task.labelset_id o) (Task.ann_guidelines o) (Task.ml_model_id o)
        (Task.annotation_level o).


(** ** Concrete stores and environments *)
(** Every provider answers: an invitation yields a fresh identifier. *)
Definition env_ok : Env :=
  mkEnv (fun email _ => inr ("id-" ++ email)%string) (Some "token")
    (fun _ => true) (fun _ _ => None).

(** The identity provider refuses invitations. *)
Definition env_invite_fails : Env :=
  mkEnv (fun _ _ => inl "Email rate limit exceeded") (Some "token")
    (fun _ => true) (fun _ _ => None).


(** The task of the examples. *)
Definition task_ex : Task.t :=
  Task.mk 1 "Contracts" "clause labelling" 1 1 "guidelines" None "span".

(** One task, two slots: slot 1 (a@x.org) has the assignments 1 and 3,
    slot 2 (b@x.org) the assignment 2. *)
Definition store_ex : Store :=
  mkStore
    [task_ex]
    [Assignment.mk 1 (Some "u1") 1 10 PENDING 1 0 1 MANUAL;
     Assignment.mk 2 (Some "u2") 1 10 PENDING 1 0 2 MANUAL;
     Assignment.mk 3 (Some "u1") 1 11 DONE 2 0 1 MANUAL]
    [Annotation.mk 1 1 "Party" (Some 0%Z) (Some 3%Z) "abc" "ls1" MANUAL 3;
     Annotation.mk 2 1 "Date" (Some 4%Z) (Some 6%Z) "de" "ls2" MANUAL 3]
    [Relation.mk 1 1 2 "ls1" "ls2" "right" ["Is a"]]
    [Document.mk 10 "X" "abc de"; Document.mk 11 "Y" "fgh"]
    [User.mk "u1" "a@x.org" None; User.mk "u2" "b@x.org" None;
     User.mk "u3" "c@x.org" None]
    2 4 3 2 [].

(** Five assignments of u1 in task 1: positions 3 and 4 done, 5 to 7
    pending. *)
Definition store_seq : Store :=
  mkStore
    [task_ex]
    [Assignment.mk 1 (Some "u1") 1 10 DONE 3 0 1 MANUAL;
     Assignment.mk 2 (Some "u1") 1 11 DONE 4 0 1 MANUAL;
     Assignment.mk 3 (Some "u1") 1 12 PENDING 6 0 1 MANUAL;
     Assignment.mk 4 (Some "u1") 1 13 PENDING 5 0 1 MANUAL;
     Assignment.mk 5 (Some "u1") 1 14 PENDING 7 0 1 MANUAL;
     Assignment.mk 6 (Some "u2") 1 10 PENDING 1 0 2 MANUAL]
    [] [] [] [User.mk "u1" "a@x.org" None; User.mk "u2" "b@x.org" None]
    2 7 1 1 [].

(** Slots numbered 0 and 1. *)
Definition store_zero : Store :=
  mkStore
    [task_ex]
    [Assignment.mk 1 (Some "u1") 1 10 PENDING 1 0 0 MANUAL;
     Assignment.mk 2 (Some "u2") 1 10 PENDING 1 0 1 MANUAL]
    [] [] [Document.mk 10 "X" "abc de"]
    [User.mk "u1" "a@x.org" None; User.mk "u2" "b@x.org" None;
     User.mk "u3" "c@x.org" None]
    2 3 1 1 [].


(** ** Vocabulary for the other procedures *)
(** The row the store keeps for new relation fields under the identifier
    [id]. *)
Definition stored_relation (id : Z) (f : NewRelation.t) : Relation.t :=
  Relation.mk id (NewRelation.from_id f) (NewRelation.to_id f)
    (NewRelation.ls_from f) (NewRelation.ls_to f) (NewRelation.direction f)
    (NewRelation.labels f).

(** The new relation fields a stored row carries. *)
Definition relation_fields_of (r : Relation.t) : NewRelation.t :=
  NewRelation.mk (Relation.ls_from r) (Relation.ls_to r)
    (Relation.direction r) (Relation.labels r) (Relation.from_id r)
    (Relation.to_id r).

(** An entry of the widget that labels a region. *)
Definition is_label (x : LSItem.t) : bool :=
  bool_decide (LSItem.from_name x = Some "label").

(** An entry without its confidence. *)
Definition without_confidence (x : LSItem.t) : LSItem.t :=
  LSItem.with_confidence_rating None x.

(** What a reassignment may change: the annotator of an assignment, new
    users at the end of the users, new entries at the end of the log. *)
Definition rebinding_only (s s' : Store) : Prop :=
  tasks s' = tasks s
  /\ annotations s' = annotations s
  /\ annotation_relations s' = annotation_relations s
  /\ documents s' = documents s
  /\ next_task_id s' = next_task_id s
  /\ next_assignment_id s' = next_assignment_id s
  /\ next_annotation_id s' = next_annotation_id s
  /\ next_relation_id s' = next_relation_id s
  /\ map (Assignment.with_annotator_id None) (assignments s')
     = map (Assignment.with_annotator_id None) (assignments s)
  /\ (exists new_users, users s' = users s ++ new_users)
  /\ (exists events, log s' = log s ++ events).

(** The users that have the email. *)
Definition users_with_email (email : string) (s : Store) : list User.t :=
  List.filter (fun u => bool_decide (User.email u = email)) (users s).

(** An invitation was sent. *)
Definition is_invite (e : Effect) : bool :=
  match e with
  | EInviteUser _ _ => true
  | _ => false
  end.

(** A known user was tagged or mailed. *)
Definition is_notice (e : Effect) : bool :=
  match e with
  | EUpdateUserMetadata _ _ | ESendMail _ => true
  | _ => false
  end.

(** What a replication or a merge may change: rows are appended to the four
    tables, counters move, the log grows; documents and users stay. *)
Definition appends_only (s s' : Store) : Prop :=
  (exists l, tasks s' = tasks s ++ l)
  /\ (exists l, assignments s' = assignments s ++ l)
  /\ (exists l, annotations s' = annotations s ++ l)
  /\ (exists l, annotation_relations s' = annotation_relations s ++ l)
  /\ documents s' = documents s
  /\ users s' = users s
  /\ (exists l, log s' = log s ++ l).

(** A procedure that only appends, whatever its outcome. *)
Definition appending {A} (m : M A) : Prop :=
  forall s, appends_only s (fst (m s)).

(** The task of the assignment is one of [ts] and belongs to the project. *)
Definition in_project (p_id : Z) (ts : list Task.t) (a : Assignment.t) : bool :=
  existsb
    (fun t => bool_decide (Task.id t = Assignment.task_id a)
              && bool_decide (Task.project_id t = p_id))
    ts.

(** ** More concrete data *)
(** The relation of the example store, as the widget serializes it. *)
Definition rel_ex : LSSerializedRelation.t :=
  LSSerializedRelation.mk "ls1" "ls2" ["Is a"] "right" "relation".

(** Two labelled regions of the widget with a document rating between
    them. *)
Definition items_ex : list LSItem.t :=
  [LSItem.mk (Some "ls1") (Some "label") (Some "labels") None None None None;
   LSItem.mk None (Some "doc_confidence") (Some "rating") (Some 4%Z) None
     None None;
   LSItem.mk (Some "ls2") (Some "label") (Some "labels") None None None None].

(** The group of slot 1 in the annotators' view of the example store. *)
Definition group_ex : AnnotatorGroup.t :=
  annotator_group 1 (DbAnnotator.mk 1 (Some "a@x.org") "a@x.org") store_ex.



(** The document of the assignment makes the key [k] of [name2Id]. *)
Definition named (k : string) (ra : RichAssignment.t) : bool :=
  match RichAssignment.documents ra with
  | Some d => bool_decide (Document.name d = k)
  | None => bool_decide (k = "undefined")
  end.

(** A [createMany] whose schema answers an object with the message of its
    issue, whose table defaults are those of a pending manual assignment,
    and whose store accepts every batch. *)
Definition cenv_ex : CreateManyEnv :=
  mkCreateManyEnv
    (fun input =>
       match input with
       | InputObject _ _ => "Expected array, received object"
       | InputArray _ => "Invalid input"
       end)
    None PENDING 1 0 MANUAL (fun _ _ => None).

(** * Facts about the query builder *)

Section OrderFacts.
Context {A : Type} (leb : A -> A -> bool).
Hypothesis leb_total : forall x y, leb x y = true \/ leb y x = true.
Hypothesis leb_trans :
  forall x y z, leb x y = true -> leb y z = true -> leb x z = true.

Let R (x y : A) : Prop := leb x y = true.

Lemma insert_row_perm x l : Permutation (insert_row leb x l) (x :: l).
Proof.
  induction l as [|y l IH]; simpl; [reflexivity|].
  destruct (leb x y); [reflexivity|].
  rewrite IH. apply perm_swap.
Qed.

Lemma order_perm l : Permutation (order leb l) l.
Proof.
  induction l as [|x l IH]; simpl; [constructor|].
  rewrite insert_row_perm. now constructor.
Qed.

Lemma order_In x l : In x (order leb l) <-> In x l.
Proof.
  split; apply Permutation_in; [|symmetry]; apply order_perm.
Qed.

Lemma order_length l : length (order leb l) = length l.
Proof. apply Permutation_length, order_perm. Qed.

Lemma insert_row_sorted x l :
  StronglySorted R l -> StronglySorted R (insert_row leb x l).
Proof.
  induction 1 as [|y l Hs IH Hy]; simpl.
  - repeat constructor.
  - destruct (leb x y) eqn:Hxy.
    + constructor; [now constructor|].
      constructor; [exact Hxy|].
      eapply Forall_impl; [exact Hy|].
      intros z Hz. eapply leb_trans; eassumption.
    + constructor; [exact IH|].
      eapply Permutation_Forall; [symmetry; apply insert_row_perm|].
      constructor; [|exact Hy].
      destruct (leb_total x y) as [H|H]; [congruence|exact H].
Qed.

Lemma order_sorted l : StronglySorted R (order leb l).
Proof.
  induction l as [|x l IH]; simpl; [constructor|].
  now apply insert_row_sorted.
Qed.

(** The first row of an ordered result precedes every row. *)
Lemma order_head_min x l' l :
  order leb l = x :: l' -> forall y, In y l -> leb x y = true.
Proof.
  intros Ho y Hy.
  pose proof (order_sorted l) as Hs. rewrite Ho in Hs.
  apply order_In in Hy. rewrite Ho in Hy.
  inversion Hs as [|? ? _ Hall]; subst.
  destruct Hy as [<-|Hy].
  - destruct (leb_total x x); assumption.
  - eapply List.Forall_forall in Hall; eassumption.
Qed.

End OrderFacts.

Lemma order_nil_inv {A} (leb : A -> A -> bool) l : order leb l = [] -> l = [].
Proof.
  intros H. apply Permutation_nil. rewrite <- H. apply order_perm.
Qed.

Lemma maybeSingle_limit_1 {A} (l : list A) :
  maybeSingle (limit 1 l) = mkPg (head l) None None.
Proof. destruct l as [|x [|y l]]; reflexivity. Qed.

Lemma by_seq_pos_asc_total a b :
  by_seq_pos_asc a b = true \/ by_seq_pos_asc b a = true.
Proof. unfold by_seq_pos_asc. lia. Qed.

Lemma by_seq_pos_asc_trans a b c :
  by_seq_pos_asc a b = true -> by_seq_pos_asc b c = true ->
  by_seq_pos_asc a c = true.
Proof. unfold by_seq_pos_asc. lia. Qed.

Lemma by_id_asc_total a b : by_id_asc a b = true \/ by_id_asc b a = true.
Proof. unfold by_id_asc. lia. Qed.

Lemma by_id_asc_trans a b c :
  by_id_asc a b = true -> by_id_asc b c = true -> by_id_asc a c = true.
Proof. unfold by_id_asc. lia. Qed.

Lemma by_task_desc_seq_asc_spec a b :
  by_task_desc_seq_asc a b = true <->
  (Assignment.task_id b < Assignment.task_id a
   \/ (Assignment.task_id a = Assignment.task_id b
       /\ Assignment.seq_pos a <= Assignment.seq_pos b))%Z.
Proof. unfold by_task_desc_seq_asc. lia. Qed.

Lemma by_task_desc_seq_asc_total a b :
  by_task_desc_seq_asc a b = true \/ by_task_desc_seq_asc b a = true.
Proof. rewrite !by_task_desc_seq_asc_spec. lia. Qed.

Lemma by_task_desc_seq_asc_trans a b c :
  by_task_desc_seq_asc a b = true -> by_task_desc_seq_asc b c = true ->
  by_task_desc_seq_asc a c = true.
Proof. rewrite !by_task_desc_seq_asc_spec. lia. Qed.

Lemma NoDup_map_eq {A B} (f : A -> B) (l : list A) x y :
  NoDup (map f l) -> In x l -> In y l -> f x = f y -> x = y.
Proof.
  induction l as [|z l IH]; simpl; [tauto|].
  intros Hnd Hx Hy Hf. inversion Hnd as [|? ? Hz Hnd']; subst.
  destruct Hx as [->|Hx], Hy as [->|Hy]; auto.
  - exfalso. apply Hz. rewrite Hf. apply list_elem_of_In. now apply in_map.
  - exfalso. apply Hz. rewrite <- Hf. apply list_elem_of_In. now apply in_map.
Qed.

(** * The sequencer *)

(** C2: [countAssignmentsByUserAndTask] returns [{next, total}]: [total]
    counts all the annotator's assignments in the task, [next] is the
    smallest [seq_pos] of a pending one, [total + 1] when none is pending,
    and the result is [{next: 1, total: 0}] when there is no assignment. *)
Theorem countAssignmentsByUserAndTask_next_total annotator_id task_id s :
  let mine := assignments_of annotator_id task_id s in
  let pending := List.filter is_pending mine in
  exists nt,
    countAssignmentsByUserAndTask annotator_id task_id s = inr nt
    /\ total nt = Z.of_nat (length mine)
    /\ (pending <> [] ->
        exists a, In a pending /\ next nt = Assignment.seq_pos a
                  /\ forall b, In b pending ->
                               (next nt <= Assignment.seq_pos b)%Z)
    /\ (pending = [] -> next nt = (total nt + 1)%Z)
    /\ (mine = [] -> next nt = 1%Z /\ total nt = 0%Z).
Proof.
  intros mine pending.
  unfold countAssignmentsByUserAndTask.
  rewrite maybeSingle_limit_1. cbn [error data count select_count].
  fold (assignments_of annotator_id task_id s). fold mine. fold pending.
  eexists. split; [reflexivity|]. cbn [next total default].
  split; [reflexivity|].
  destruct (order by_seq_pos_asc pending) as [|x rest] eqn:Ho.
  - apply order_nil_inv in Ho. cbn [map head].
    split; [intros Hne; now destruct Hne|].
    split; [reflexivity|].
    intros Hnil. rewrite Hnil. split; reflexivity.
  - cbn [map head].
    assert (Hne : pending <> []).
    { intros Hnil. rewrite Hnil in Ho. discriminate. }
    split; [|split].
    + intros _. exists x. split; [|split; [reflexivity|]].
      * apply (order_In by_seq_pos_asc). rewrite Ho. now left.
      * intros b Hb.
        pose proof (order_head_min by_seq_pos_asc by_seq_pos_asc_total
                      by_seq_pos_asc_trans x rest pending Ho b Hb) as H.
        unfold by_seq_pos_asc in H. lia.
    + intros Hnil. contradiction.
    + intros Hnil. exfalso. apply Hne. subst pending. now rewrite Hnil.
Qed.

(** C8: [findNextAssignmentByUser] returns [null] without an error when the
    annotator has nothing pending; otherwise it returns a pending assignment
    of the annotator that comes first by task identifier descending, then
    sequence position ascending.  Whatever else comes first has the same
    task identifier and sequence position, so the row is the only one when
    those pairs are pairwise distinct. *)
Theorem findNextAssignmentByUser_first user_id s :
  let pending :=
    List.filter is_pending
      (List.filter (of_annotator user_id) (assignments s)) in
  let first a :=
    forall b, In b pending ->
      (Assignment.task_id b < Assignment.task_id a
       \/ (Assignment.task_id a = Assignment.task_id b
           /\ Assignment.seq_pos a <= Assignment.seq_pos b))%Z in
  let key a := (Assignment.task_id a, Assignment.seq_pos a) in
  exists r,
    findNextAssignmentByUser user_id s = inr r
    /\ (pending = [] -> r = None)
    /\ (pending <> [] ->
        exists a, r = Some a /\ In a pending /\ first a
          /\ (forall b, In b pending -> first b -> key b = key a)
          /\ (NoDup (map key pending) ->
              forall b, In b pending -> first b -> b = a)).
Proof.
  intros pending first key.
  unfold findNextAssignmentByUser.
  rewrite maybeSingle_limit_1. cbn [error data]. fold pending.
  eexists. split; [reflexivity|].
  destruct (order by_task_desc_seq_asc pending) as [|x rest] eqn:Ho.
  - apply order_nil_inv in Ho.
    split; [reflexivity|]. intros Hne. contradiction.
  - cbn [head]. split.
    { intros Hnil. rewrite Hnil in Ho. discriminate. }
    intros _. exists x.
    assert (Hin : In x pending).
    { apply (order_In by_task_desc_seq_asc). rewrite Ho. now left. }
    assert (Hfirst : first x).
    { intros b Hb. apply by_task_desc_seq_asc_spec.
      eapply order_head_min; eauto using by_task_desc_seq_asc_total,
        by_task_desc_seq_asc_trans. }
    assert (Hkey : forall b, In b pending -> first b -> key b = key x).
    { intros b Hb Hfb. specialize (Hfb x Hin). specialize (Hfirst b Hb).
      unfold key. f_equal; lia. }
    repeat (split; [first [reflexivity|assumption]|]).
    intros Hnd b Hb Hfb.
    eapply NoDup_map_eq; eauto.
Qed.

(** C7: with nothing pending for the annotator in the task,
    [findNextAssignmentsByUserAndTask] fails, its error carrying the store's
    no-row error; otherwise it returns one assignment of the annotator in the
    task that is still pending. *)
Theorem findNextAssignmentsByUserAndTask_pending
    (choose : list Assignment.t -> nat) annotator_id task_id s :
  let pending :=
    List.filter is_pending (assignments_of annotator_id task_id s) in
  (pending = [] ->
   findNextAssignmentsByUserAndTask choose annotator_id task_id s
   = inl (TRPCError INTERNAL_SERVER_ERROR
            ("Error in findNextAssignmentsByUserAndTask: " ++ no_single_row)%string))
  /\ (pending <> [] ->
      exists a,
        findNextAssignmentsByUserAndTask choose annotator_id task_id s
        = inr (Some a)
        /\ In a (assignments s)
        /\ Assignment.annotator_id a = Some annotator_id
        /\ Assignment.task_id a = task_id
        /\ Assignment.status a = PENDING).
Proof.
  intros pending.
  unfold findNextAssignmentsByUserAndTask, next_random_assignment.
  fold (assignments_of annotator_id task_id s). fold pending.
  split.
  - intros ->. reflexivity.
  - intros Hne.
    assert (Hlen : (0 < length pending)%nat).
    { destruct pending; [contradiction|simpl; lia]. }
    destruct (lookup_lt_is_Some_2 pending
                (choose pending mod length pending)%nat) as [a Ha].
    { apply Nat.mod_upper_bound. lia. }
    rewrite Ha. exists a. split; [reflexivity|].
    apply list_elem_of_lookup_2, list_elem_of_In in Ha.
    unfold pending, assignments_of in Ha.
    rewrite !filter_In in Ha.
    destruct Ha as [[[Hin Hu] Ht] Hp].
    unfold of_annotator, of_task, is_pending in *.
    apply bool_decide_eq_true in Hu, Ht, Hp. auto.
Qed.

(** * Reassignment: what the loops do to the store *)

Lemma updates_in_app l1 l2 :
  updates_in (l1 ++ l2) = (updates_in l1 + updates_in l2)%nat.
Proof. unfold updates_in. now rewrite List.filter_app, length_app. Qed.

Lemma same_frame_refl s : same_frame s s.
Proof. repeat split. Qed.

Lemma same_frame_trans s1 s2 s3 :
  same_frame s1 s2 -> same_frame s2 s3 -> same_frame s1 s3.
Proof. unfold same_frame. intuition congruence. Qed.

Lemma filter_none {A} (f : A -> bool) (l : list A) :
  (forall x, In x l -> f x = false) -> List.filter f l = [].
Proof.
  induction l as [|x l IH]; simpl; intros H; [reflexivity|].
  rewrite (H x) by now left. apply IH. intros y Hy. apply H. now right.
Qed.

Section ReassignFacts.
Variable env : Env.

Lemma rebound_ids l v rows :
  map Assignment.id (rebound env l v rows) = map Assignment.id rows.
Proof.
  unfold rebound. rewrite map_map. apply map_ext.
  intros a. now destruct (existsb _ l).
Qed.

Lemma filter_unique_id (rows : list Assignment.t) (i : Z) :
  NoDup (map Assignment.id rows) -> In i (map Assignment.id rows) ->
  exists r, List.filter (fun a => bool_decide (Assignment.id a = i)) rows
            = [r].
Proof.
  induction rows as [|a rows IH]; simpl; [tauto|].
  intros Hnd Hin. inversion Hnd as [|? ? Hni Hnd']; subst.
  case_bool_decide as Hai.
  - exists a. f_equal.
    apply filter_none. intros b Hb.
    case_bool_decide as Hbi; [|reflexivity].
    exfalso. apply Hni. rewrite Hai, <- Hbi.
    apply list_elem_of_In. now apply in_map.
  - destruct Hin as [Hin|Hin]; [contradiction|]. now apply IH.
Qed.

(** One update of a row that exists under a unique identifier. *)
Lemma assignment_update_result (i : Z) v s :
  NoDup (map Assignment.id (assignments s)) ->
  In i (map Assignment.id (assignments s)) ->
  (update_error env i v = None ->
   exists r,
     assignment_update env i v s
     = (emit (EUpdateAssignment i v)
          (set_assignments s
             (map (fun a => if bool_decide (Assignment.id a = i)
                            then Assignment.with_annotator_id v a else a)
                (assignments s))
             (next_assignment_id s)),
        inr (Some r)))
  /\ (forall m, update_error env i v = Some m ->
      assignment_update env i v s
      = (s, internal ("Error in update: " ++ m)%string)).
Proof.
  intros Hnd Hin. unfold assignment_update. split.
  - intros ->. destruct (filter_unique_id _ _ Hnd Hin) as [r ->].
    simpl. eauto.
  - intros m ->. reflexivity.
Qed.

Lemma rebind_result l v stats s :
  NoDup (map Assignment.id (assignments s)) ->
  (forall a, In a l -> In (Assignment.id a) (map Assignment.id (assignments s))) ->
  exists s',
    rebind env l v stats s
    = (s', inr (mkStats
                  (success stats + length (List.filter (update_ok env v) l))
                  (failed stats
                   + length (List.filter (fun a => negb (update_ok env v a)) l))))
    /\ assignments s' = rebound env l v (assignments s)
    /\ log s'
       = log s ++ map (fun a => EUpdateAssignment (Assignment.id a) v)
                    (List.filter (update_ok env v) l)
    /\ same_frame s s'.
Proof.
  revert stats s. induction l as [|a l IH]; intros stats s Hnd Hin.
  - exists s. simpl. unfold ret.
    rewrite !Nat.add_0_r, app_nil_r. destruct stats.
    repeat split. unfold rebound. simpl.
    now rewrite map_id.
  - assert (Ha : In (Assignment.id a) (map Assignment.id (assignments s)))
      by (apply Hin; now left).
    destruct (assignment_update_result (Assignment.id a) v s Hnd Ha)
      as [Hok Hko].
    cbn [rebind]. unfold bind at 1, try_catch, bind at 1.
    destruct (update_error env (Assignment.id a) v) as [m|] eqn:Hue.
    + rewrite (Hko m eq_refl). unfold internal. cbn [ret].
      destruct (IH (mkStats (success stats) (S (failed stats))) s Hnd)
        as (s' & Hr & Hrows & Hlog & Hfr).
      { intros b Hb. apply Hin. now right. }
      exists s'.
      assert (Hu : update_ok env v a = false).
      { unfold update_ok. rewrite Hue. reflexivity. }
      cbn [List.filter]. rewrite Hu. cbn [negb length].
      rewrite Hr. cbn [success failed].
      split; [do 3 f_equal; lia|].
      split; [|split; assumption].
      rewrite Hrows. unfold rebound. apply map_ext. intros b.
      cbn [existsb]. rewrite Hu, andb_false_r. reflexivity.
    + destruct (Hok eq_refl) as [r Hr0]. rewrite Hr0. cbn [ret].
      set (s1 := emit _ _).
      destruct (IH (mkStats (S (success stats)) (failed stats)) s1)
        as (s' & Hr & Hrows & Hlog & Hfr).
      { subst s1. cbn [assignments emit set_assignments].
        rewrite map_map.
        erewrite map_ext; [exact Hnd|].
        intros b. simpl. now case_bool_decide. }
      { intros b Hb. subst s1. cbn [assignments emit set_assignments].
        rewrite map_map.
        erewrite map_ext; [apply Hin; now right|].
        intros c. simpl. now case_bool_decide. }
      exists s'.
      assert (Hu : update_ok env v a = true).
      { unfold update_ok. rewrite Hue. reflexivity. }
      cbn [List.filter]. rewrite Hu. cbn [negb length map].
      rewrite Hr. cbn [success failed].
      split; [do 3 f_equal; lia|].
      split; [|split].
      * rewrite Hrows. subst s1. cbn [assignments emit set_assignments].
        unfold rebound. rewrite map_map. apply map_ext. intros b.
        cbn [existsb]. rewrite Hu, andb_true_r.
        case_bool_decide as Hb.
        -- rewrite bool_decide_eq_true_2 by (now rewrite Hb).
           cbn [orb]. now destruct (existsb _ l).
        -- rewrite bool_decide_eq_false_2 by congruence.
           reflexivity.
      * rewrite Hlog. subst s1. cbn [log emit set_assignments].
        now rewrite <- app_assoc.
      * eapply same_frame_trans; [|exact Hfr].
        subst s1. repeat split.
Qed.
End ReassignFacts.

Lemma findAssignmentsByTaskAndUser_slot task_id n s :
  findAssignmentsByTaskAndUser None (Some n) task_id s
  = inr (slot_rows task_id n s).
Proof. reflexivity. Qed.

Section ReassignCounts.
Variable env : Env.

Lemma assignment_update_cases i v s :
  (exists e, assignment_update env i v s = (s, inl e))
  \/ (exists s' r,
        assignment_update env i v s = (s', inr r)
        /\ log s' = log s ++ [EUpdateAssignment i v]).
Proof.
  unfold assignment_update.
  destruct (error _) as [m|]; [left|right]; eauto.
Qed.

(** The counters of the inner loop against the log: a success is a
    committed update, and every fetched assignment is counted once. *)
Lemma rebind_counts l v stats s :
  exists s' stats',
    rebind env l v stats s = (s', inr stats')
    /\ (updates_in (log s') + success stats
        = updates_in (log s) + success stats')%nat
    /\ (success stats' + failed stats'
        = success stats + failed stats + length l)%nat.
Proof.
  revert stats s. induction l as [|a l IH]; intros stats s.
  - exists s, stats. simpl. unfold ret. repeat split; lia.
  - cbn [rebind]. unfold bind at 1, try_catch, bind at 1.
    destruct (assignment_update_cases (Assignment.id a) v s)
      as [[e ->]|(s1 & r & -> & Hlog)]; cbn [ret].
    + destruct (IH (mkStats (success stats) (S (failed stats))) s)
        as (s' & stats' & -> & H1 & H2).
      exists s', stats'. cbn [success failed length] in *.
      repeat split; lia.
    + destruct (IH (mkStats (S (success stats)) (failed stats)) s1)
        as (s' & stats' & -> & H1 & H2).
      exists s', stats'. cbn [success failed length] in *.
      rewrite Hlog, updates_in_app in H1. cbn in H1.
      repeat split; lia.
Qed.

(** Resolving a user touches the users and the log only, and commits no
    assignment update; the identifier it yields is not empty. *)
Lemma assignUserToTask_frame email task_id s s1 r :
  assignUserToTask env email task_id s = (s1, r) ->
  assignments s1 = assignments s
  /\ (exists evs, log s1 = log s ++ evs
                  /\ Forall (fun e => is_update e = false) evs)
  /\ (forall u, r = inr u -> u <> ""%string).
Proof.
  unfold assignUserToTask. intros H.
  repeat match type of H with
         | context [match ?x with _ => _ end] => destruct x eqn:?
         end;
    inversion H; subst; clear H; cbn [assignments log emit set_users];
    (split; [reflexivity|]);
    (split;
     [ first [ exists []; rewrite app_nil_r; split; [reflexivity|constructor]
             | eexists; split; [reflexivity|repeat constructor]
             | eexists; split;
               [rewrite <- app_assoc; reflexivity|repeat constructor] ]
     | intros u Hu; inversion Hu; subst;
       unfold truthy_string in *;
       match goal with
       | Hn : negb (bool_decide (_ = _)) = true |- _ =>
           apply negb_true_iff, bool_decide_eq_false in Hn; exact Hn
       end ]).
Qed.

Lemma assignUserToTask_updates email task_id s s1 r :
  assignUserToTask env email task_id s = (s1, r) ->
  updates_in (log s1) = updates_in (log s).
Proof.
  intros H. apply assignUserToTask_frame in H as (_ & (evs & -> & Hev) & _).
  rewrite updates_in_app. unfold updates_in at 2.
  rewrite filter_none; [simpl; lia|].
  intros x Hx. eapply List.Forall_forall in Hev; eauto.
Qed.


End ReassignCounts.


Lemma slot_rows_In task_id n s a :
  In a (slot_rows task_id n s) ->
  In a (assignments s) /\ Assignment.task_id a = task_id.
Proof.
  unfold slot_rows. rewrite order_In.
  destruct (truthy_Z n); rewrite ?filter_In; unfold of_task;
    rewrite bool_decide_eq_true; tauto.
Qed.

Lemma slot_rows_zero task_id s a :
  In a (slot_rows task_id 0 s)
  <-> In a (assignments s) /\ Assignment.task_id a = task_id.
Proof.
  unfold slot_rows. cbn. rewrite order_In, filter_In. unfold of_task.
  now rewrite bool_decide_eq_true.
Qed.

Lemma rebound_In env l v rows b' :
  In b' (rebound env l v rows) ->
  exists b, In b rows
    /\ b' = (if existsb (fun c => bool_decide (Assignment.id c = Assignment.id b)
                                  && update_ok env v c) l
             then Assignment.with_annotator_id v b else b).
Proof.
  unfold rebound. rewrite in_map_iff. intros (b & <- & Hb). eauto.
Qed.

Section SlotFacts.
Variable env : Env.

(** A slot whose email changes: the user is resolved first, on failure the
    slot ends there, otherwise every fetched row is updated in turn. *)
Lemma reassign_slot_result task_id len i e st s a :
  NoDup (map Assignment.id (assignments s)) ->
  fst st !! i = Some a ->
  Annotator.email a <> Some e ->
  let rows := slot_rows task_id (Annotator.annotator_number a) s in
  let finish s1 v :=
    exists s' stats',
      reassign_slot env task_id len i e st s
      = (s', inr (<[i := Annotator.with_email (Some e) a]> (fst st), stats'))
      /\ assignments s' = rebound env rows v (assignments s)
      /\ log s' = log s1
                  ++ map (fun b => EUpdateAssignment (Assignment.id b) v)
                       (List.filter (update_ok env v) rows)
      /\ users s' = users s1
      /\ success stats'
         = (success (snd st)
            + length (List.filter (update_ok env v) rows))%nat
      /\ failed stats'
         = (failed (snd st)
            + length (List.filter (fun b => negb (update_ok env v b)) rows))%nat
  in
  if truthy_string e && truthy_nat len then
    match assignUserToTask env e task_id s with
    | (s1, inl x) =>
        reassign_slot env task_id len i e st s = (s1, inl x)
    | (s1, inr u) => finish s1 (Some u)
    end
  else finish s None.
Proof.
  intros Hnd Hi Hne rows finish.
  assert (Hrows : forall s1 v stats,
             assignments s1 = assignments s ->
             exists s',
               rebind env rows v stats s1
               = (s', inr (mkStats
                    (success stats
                     + length (List.filter (update_ok env v) rows))
                    (failed stats
                     + length (List.filter
                                 (fun b => negb (update_ok env v b)) rows))))
               /\ assignments s' = rebound env rows v (assignments s)
               /\ log s' = log s1
                    ++ map (fun b => EUpdateAssignment (Assignment.id b) v)
                         (List.filter (update_ok env v) rows)
               /\ users s' = users s1).
  { intros s1 v stats Hs1.
    destruct (rebind_result env rows v stats s1) as (s' & Hr & Ha & Hl & Hf).
    - now rewrite Hs1.
    - intros b Hb. rewrite Hs1. apply in_map.
      now apply slot_rows_In in Hb.
    - exists s'. rewrite Hs1 in Ha. repeat split; try assumption.
      apply Hf. }
  assert (Hloose : loose_neq e (Annotator.email a) = true).
  { unfold loose_neq. now rewrite bool_decide_eq_false_2. }
  assert (Heq : reassign_slot env task_id len i e st s
                = (new_user <-
                     (if truthy_string e && truthy_nat len
                      then u <- assignUserToTask env e task_id ;; ret (Some u)
                      else ret None) ;;
                   stats' <- rebind env rows new_user (snd st) ;;
                   ret (<[i := Annotator.with_email (Some e) a]> (fst st),
                        stats')) s).
  { unfold reassign_slot. rewrite Hi, Hloose. reflexivity. }
  subst finish. cbn beta.
  destruct (truthy_string e && truthy_nat len).
  - destruct (assignUserToTask env e task_id s) as [s1 [x|u]] eqn:Hres.
    + rewrite Heq. unfold bind. now rewrite Hres.
    + pose proof Hres as Hfr.
      apply assignUserToTask_frame in Hfr as (Hsame & _ & _).
      destruct (Hrows s1 (Some u) (snd st) Hsame)
        as (s' & Hr & Ha & Hl & Hu).
      eexists _, _. split.
      { rewrite Heq. unfold bind. rewrite Hres. cbn [ret].
        rewrite Hr. reflexivity. }
      cbn [success failed]. auto.
  - destruct (Hrows s None (snd st) eq_refl)
      as (s' & Hr & Ha & Hl & Hu).
    eexists _, _. split.
    { rewrite Heq. unfold bind. cbn [ret]. rewrite Hr. reflexivity. }
    cbn [success failed]. auto.
Qed.

Lemma reassign_from_app task_id len pre post i st s :
  reassign_from env task_id len i (pre ++ post) st s
  = match reassign_from env task_id len i pre st s with
    | (s1, inr st1) =>
        reassign_from env task_id len (i + length pre) post st1 s1
    | (s1, inl x) => (s1, inl x)
    end.
Proof.
  revert i st s. induction pre as [|e pre IH]; intros i st s.
  - simpl. unfold ret. now rewrite Nat.add_0_r.
  - cbn [app reassign_from length]. unfold bind.
    destruct (reassign_slot env task_id len i e st s) as [s1 [x|st1]];
      [reflexivity|].
    rewrite IH. now rewrite Nat.add_succ_r.
Qed.

(** A run in which every requested email is the current one. *)
Lemma reassign_from_unchanged task_id len emails i st s :
  (forall j e, emails !! j = Some e ->
     exists a, fst st !! (i + j)%nat = Some a
               /\ Annotator.email a = Some e) ->
  reassign_from env task_id len i emails st s = (s, inr st).
Proof.
  revert i. induction emails as [|e rest IH]; intros i H; [reflexivity|].
  cbn [reassign_from]. unfold bind.
  destruct (H 0%nat e eq_refl) as (a & Ha & He).
  rewrite Nat.add_0_r in Ha.
  unfold reassign_slot. rewrite Ha. unfold loose_neq.
  rewrite bool_decide_eq_true_2 by exact He. cbn [negb ret].
  apply IH. intros j e' Hj.
  rewrite Nat.add_succ_l, <- Nat.add_succ_r. now apply (H (S j)).
Qed.
End SlotFacts.

Lemma truthy_string_true e : e <> ""%string -> truthy_string e = true.
Proof. intros H. unfold truthy_string. now rewrite bool_decide_eq_false_2. Qed.

Lemma truthy_nat_true n : n <> 0%nat -> truthy_nat n = true.
Proof. intros H. unfold truthy_nat. now apply negb_true_iff, Nat.eqb_neq. Qed.

(** C9: a slot number 0 switches the slot filter of
    [findAssignmentsByTaskAndUser] off, as an absent number does, so the
    query yields the task's assignments of every slot; when the slot number 0
    gets a new email in [updateAssignees] and the store accepts the updates,
    every assignment of the task, whatever its slot, is bound to the new
    user. *)
Theorem slot_zero_rebinds_every_slot env task_id len i e st s a s1 u :
  NoDup (map Assignment.id (assignments s)) ->
  fst st !! i = Some a ->
  Annotator.annotator_number a = 0%Z ->
  Annotator.email a <> Some e ->
  e <> ""%string ->
  len <> 0%nat ->
  assignUserToTask env e task_id s = (s1, inr u) ->
  (forall b, update_error env b (Some u) = None) ->
  findAssignmentsByTaskAndUser None (Some 0%Z) task_id s
  = findAssignmentsByTaskAndUser None None task_id s
  /\ (forall b, In b (assignments s) -> Assignment.task_id b = task_id ->
        exists rows,
          findAssignmentsByTaskAndUser None (Some 0%Z) task_id s = inr rows
          /\ In b rows)
  /\ exists s' st',
       reassign_slot env task_id len i e st s = (s', inr st')
       /\ forall b, In b (assignments s') -> Assignment.task_id b = task_id ->
            Assignment.annotator_id b = Some u.
Proof.
  intros Hnd Hi Hzero Hne He Hlen Hres Hok.
  split; [reflexivity|]. split.
  { intros b Hb Ht. eexists. split; [reflexivity|].
    apply (slot_rows_zero task_id s b). auto. }
  pose proof (reassign_slot_result env task_id len i e st s a Hnd Hi Hne) as H.
  cbn zeta in H.
  rewrite truthy_string_true, truthy_nat_true, Hres in H by assumption.
  cbn [andb] in H.
  destruct H as (s' & stats' & Hrun & Hrows & _).
  eexists _, _. split; [exact Hrun|].
  intros b' Hb' Ht. rewrite Hrows in Hb'.
  apply rebound_In in Hb' as (b & Hb & ->).
  rewrite Hzero in *.
  assert (Hex : existsb (fun c => bool_decide (Assignment.id c = Assignment.id b)
                                  && update_ok env (Some u) c)
                  (slot_rows task_id 0 s) = true).
  { apply existsb_exists. exists b. split.
    - apply slot_rows_zero. split; [exact Hb|].
      now destruct (existsb _ _).
    - unfold update_ok. rewrite Hok.
      now rewrite !bool_decide_eq_true_2. }
  now rewrite Hex.
Qed.

(** C1, as amended: a slot whose requested email equals its current email is
    skipped (its turn changes nothing and resolves no user); a slot whose
    requested email is the empty string while its current email is not the
    empty string is not skipped: no user is resolved or invited, and each
    assignment fetched for the slot is updated to an annotator_id of null;
    when every requested email equals the current one, the call changes
    nothing at all and answers "No changes have been made". *)
Theorem updateAssignees_skips_only_unchanged env task_id :
  (forall len i e st s a,
      fst st !! i = Some a -> Annotator.email a = Some e ->
      reassign_slot env task_id len i e st s = (s, inr st))
  /\ (forall len i st s a,
        NoDup (map Assignment.id (assignments s)) ->
        fst st !! i = Some a -> Annotator.email a <> Some ""%string ->
        let rows := slot_rows task_id (Annotator.annotator_number a) s in
        exists s' st',
          reassign_slot env task_id len i ""%string st s = (s', inr st')
          /\ users s' = users s
          /\ log s' = log s
               ++ map (fun b => EUpdateAssignment (Assignment.id b) None)
                    (List.filter (update_ok env None) rows)
          /\ assignments s' = rebound env rows None (assignments s))
  /\ (forall new_emails s,
        (forall i e, new_emails !! i = Some e ->
           exists a, get_all_annotators_from_task task_id s !! i = Some a
                     /\ Annotator.email a = Some e) ->
        updateAssignees env task_id new_emails s
        = (s, inr (mkReassigned "No changes have been made"
                     (get_all_annotators_from_task task_id s)))).
Proof.
  split; [|split].
  - intros len i e st s a Hi He.
    unfold reassign_slot, loose_neq. rewrite Hi.
    now rewrite bool_decide_eq_true_2.
  - intros len i st s a Hnd Hi Hne rows.
    pose proof (reassign_slot_result env task_id len i ""%string st s a
                  Hnd Hi Hne) as H.
    cbn zeta in H. cbn [truthy_string andb] in H.
    change (truthy_string "" && truthy_nat len) with false in H.
    destruct H as (s' & stats' & Hrun & Hrows & Hlog & Hu & _).
    eexists _, _. split; [exact Hrun|]. auto.
  - intros new_emails s H.
    unfold updateAssignees, bind, query, getAllAnnotatorsFromTask.
    rewrite reassign_from_unchanged; [reflexivity|].
    intros j e Hj. now apply H.
Qed.

(** C6, as amended: for a slot whose requested email is not empty and
    differs from the current one, the user is resolved before any assignment
    of the slot is updated.  When the resolution fails, the call ends at once
    with that error: neither this slot's assignments nor any later slot is
    touched, no failure is counted, and what the earlier slots committed
    stays.  When it succeeds, the identifier is not empty and every update of
    the slot carries it. *)
Theorem updateAssignees_resolves_before_rebinding
    env task_id pre e rest s si st a s1 r :
  let new_emails := pre ++ e :: rest in
  reassign_from env task_id (length new_emails) 0 pre
    (get_all_annotators_from_task task_id s, mkStats 0 0) s = (si, inr st) ->
  NoDup (map Assignment.id (assignments si)) ->
  fst st !! length pre = Some a ->
  Annotator.email a <> Some e ->
  e <> ""%string ->
  assignUserToTask env e task_id si = (s1, r) ->
  match r with
  | inl x =>
      updateAssignees env task_id new_emails s = (s1, inl x)
      /\ assignments s1 = assignments si
      /\ updates_in (log s1) = updates_in (log si)
  | inr u =>
      u <> ""%string
      /\ updates_in (log s1) = updates_in (log si)
      /\ exists s' st',
           reassign_slot env task_id (length new_emails) (length pre) e st si
           = (s', inr st')
           /\ log s'
              = log s1
                ++ map (fun b => EUpdateAssignment (Assignment.id b) (Some u))
                     (List.filter (update_ok env (Some u))
                        (slot_rows task_id (Annotator.annotator_number a) si))
           /\ assignments s'
              = rebound env
                  (slot_rows task_id (Annotator.annotator_number a) si)
                  (Some u) (assignments si)
  end.
Proof.
  intros new_emails Hpre Hnd Hi Hne He Hres.
  pose proof (assignUserToTask_frame env e task_id si s1 r Hres)
    as (Hsame & _ & Hu).
  pose proof (assignUserToTask_updates env e task_id si s1 r Hres) as Hup.
  pose proof (reassign_slot_result env task_id (length new_emails)
                (length pre) e st si a Hnd Hi Hne) as H.
  cbn zeta in H.
  rewrite truthy_string_true, truthy_nat_true, Hres in H; try assumption.
  2:{ subst new_emails. rewrite length_app. simpl. lia. }
  cbn [andb] in H.
  destruct r as [x|u].
  - split; [|split; assumption].
    unfold updateAssignees, bind at 1, query, getAllAnnotatorsFromTask.
    unfold bind. subst new_emails.
    rewrite reassign_from_app, Hpre. cbn [reassign_from]. unfold bind.
    cbn [Nat.add]. now rewrite H.
  - split; [now apply Hu|]. split; [exact Hup|].
    destruct H as (s' & stats' & Hrun & Hrows & Hlog & _).
    eexists _, _. split; [exact Hrun|]. auto.
Qed.

(** * Reassignment: the error after the four branches *)

Section NoUndefinedCase.
Variable env : Env.

Lemma assignUserToTask_not_undefined email task_id s :
  snd (assignUserToTask env email task_id s) <> inl undefined_case.
Proof.
  unfold assignUserToTask, undefined_case, internal.
  repeat match goal with
         | |- context [match ?x with _ => _ end] => destruct x
         end; simpl; discriminate.
Qed.

Lemma reassign_slot_not_undefined task_id len i e st s :
  snd (reassign_slot env task_id len i e st s) <> inl undefined_case.
Proof.
  unfold reassign_slot.
  destruct (fst st !! i) as [a|]; [|simpl; discriminate].
  destruct (loose_neq e (Annotator.email a)); [|simpl; discriminate].
  unfold bind at 1, query. rewrite findAssignmentsByTaskAndUser_slot.
  unfold bind at 1.
  destruct (truthy_string e && truthy_nat len).
  - unfold bind at 1.
    pose proof (assignUserToTask_not_undefined e task_id s) as Hres.
    destruct (assignUserToTask env e task_id s) as [s1 [x|u]];
      [simpl in *; intros H; apply Hres; inversion H; reflexivity|].
    cbn [ret]. unfold bind.
    destruct (rebind_counts env
                (slot_rows task_id (Annotator.annotator_number a) s)
                (Some u) (snd st) s1) as (s2 & stats2 & -> & _).
    simpl. discriminate.
  - cbn [ret]. unfold bind.
    destruct (rebind_counts env
                (slot_rows task_id (Annotator.annotator_number a) s)
                None (snd st) s) as (s2 & stats2 & -> & _).
    simpl. discriminate.
Qed.

Lemma reassign_from_not_undefined task_id len emails i st s :
  snd (reassign_from env task_id len i emails st s) <> inl undefined_case.
Proof.
  revert i st s. induction emails as [|e rest IH]; intros i st s.
  - simpl. discriminate.
  - cbn [reassign_from]. unfold bind.
    pose proof (reassign_slot_not_undefined task_id len i e st s) as Hs.
    destruct (reassign_slot env task_id len i e st s) as [s1 [x|st1]];
      [exact Hs|apply IH].
Qed.
End NoUndefinedCase.

(** C10: for every pair of counters exactly one of the four guards of
    [updateAssignees] holds, the throw of "Undefined case" after them is
    never reached, and no call of [updateAssignees] ends in that error. *)
Theorem classify_exhaustive (stats : Stats) (flat : list Annotator.t) :
  length (List.filter (fun b : bool => b) (branch_guards stats)) = 1%nat
  /\ classify stats flat <> inl undefined_case
  /\ forall env task_id new_emails s,
       snd (updateAssignees env task_id new_emails s) <> inl undefined_case.
Proof.
  assert (Hc : forall st fl, classify st fl <> inl undefined_case).
  { intros [[|sc] [|fl]] anns; unfold classify; simpl; discriminate. }
  split; [|split; [apply Hc|]].
  - destruct stats as [[|sc] [|fl]]; reflexivity.
  - intros env task_id new_emails s.
    unfold updateAssignees, bind at 1, query, getAllAnnotatorsFromTask.
    unfold bind.
    pose proof (reassign_from_not_undefined env task_id (length new_emails)
                  new_emails 0
                  (get_all_annotators_from_task task_id s, mkStats 0 0) s)
      as Hloop.
    destruct (reassign_from env task_id (length new_emails) 0 new_emails
                (get_all_annotators_from_task task_id s, mkStats 0 0) s)
      as [s1 [x|st1]];
      [simpl in *; intros H; apply Hloop; inversion H; reflexivity
      |apply Hc].
Qed.

(** * Facts about the task queries *)


Lemma filter_unique {A} (key : A -> Z) (rows : list A) (x : A) :
  NoDup (map key rows) -> In x rows ->
  List.filter (fun a => bool_decide (key a = key x)) rows = [x].
Proof.
  induction rows as [|a rows IH]; simpl; [tauto|].
  rewrite NoDup_cons. intros [Hni Hnd] Hin.
  assert (Hrest : forall b, In b rows -> key b <> key a).
  { intros b Hb Heq. apply Hni. rewrite <- Heq.
    apply list_elem_of_In. now apply in_map. }
  destruct Hin as [->|Hin].
  - rewrite bool_decide_eq_true_2 by reflexivity. f_equal.
    apply filter_none. intros b Hb.
    apply bool_decide_eq_false_2. now apply Hrest.
  - rewrite bool_decide_eq_false_2; [now apply IH|].
    intros Heq. now apply (Hrest x Hin).
Qed.

Lemma task_findById_found s task :
  NoDup (map Task.id (tasks s)) -> In task (tasks s) ->
  task_findById (Task.id task) s = inr (Some task).
Proof.
  intros Hnd Hin. unfold task_findById.
  now rewrite (filter_unique Task.id (tasks s) task Hnd Hin).
Qed.

Lemma existsb_none {A} (f : A -> bool) (l : list A) :
  (forall x, In x l -> f x = false) -> existsb f l = false.
Proof.
  induction l as [|x l IH]; simpl; intros H; [reflexivity|].
  rewrite (H x) by now left. apply IH. intros y Hy. apply H. now right.
Qed.

(** * The procedures on concrete stores *)

Lemma countAssignmentsByUserAndTask_next_total_witness :
  countAssignmentsByUserAndTask "u1" 1 store_seq
  = inr {| next := 5; total := 5 |}.
Proof.
  destruct (countAssignmentsByUserAndTask_next_total "u1" 1%Z store_seq)
    as (nt & Hrun & Htot & Hpend & _).
  rewrite Hrun. f_equal. destruct nt as [nx tt]. simpl in *.
  destruct Hpend as (a & Ha & Hnx & Hmin); [discriminate|].
  f_equal; [|exact Htot].
  pose proof (Hmin (Assignment.mk 4 (Some "u1") 1 13 PENDING 5 0 1 MANUAL))
    as H5.
  simpl in H5. specialize (H5 ltac:(tauto)).
  simpl in Ha. destruct Ha as [<-|[<-|[<-|[]]]]; simpl in Hnx; lia.
Defined.

Lemma findNextAssignmentByUser_first_witness :
  findNextAssignmentByUser "u1" store_seq
  = inr (Some (Assignment.mk 4 (Some "u1") 1 13 PENDING 5 0 1 MANUAL))
  /\ findNextAssignmentByUser "u3" store_seq = inr None.
Proof.
  split.
  - destruct (findNextAssignmentByUser_first "u1" store_seq)
      as (r & Hrun & _ & Hsome).
    rewrite Hrun. destruct Hsome as (a & -> & Ha & Hfirst & _);
      [discriminate|].
    do 2 f_equal.
    pose proof (Hfirst (Assignment.mk 4 (Some "u1") 1 13 PENDING 5 0 1 MANUAL))
      as H5.
    simpl in H5. specialize (H5 ltac:(tauto)).
    simpl in Ha. destruct Ha as [<-|[<-|[<-|[]]]]; simpl in H5;
      first [reflexivity|lia].
  - destruct (findNextAssignmentByUser_first "u3" store_seq)
      as (r & Hrun & Hnone & _).
    rewrite Hrun. f_equal. now apply Hnone.
Defined.

Lemma findNextAssignmentsByUserAndTask_pending_witness :
  (exists a,
     findNextAssignmentsByUserAndTask (fun _ => 1%nat) "u1" 1 store_seq
     = inr (Some a)
     /\ In a (assignments store_seq)
     /\ Assignment.annotator_id a = Some "u1"
     /\ Assignment.task_id a = 1%Z
     /\ Assignment.status a = PENDING)
  /\ findNextAssignmentsByUserAndTask (fun _ => 1%nat) "u3" 1 store_seq
     = inl (TRPCError INTERNAL_SERVER_ERROR
              ("Error in findNextAssignmentsByUserAndTask: "
               ++ no_single_row)%string).
Proof.
  split.
  - apply (proj2 (findNextAssignmentsByUserAndTask_pending
                    (fun _ => 1%nat) "u1" 1%Z store_seq)).
    discriminate.
  - apply (proj1 (findNextAssignmentsByUserAndTask_pending
                    (fun _ => 1%nat) "u3" 1%Z store_seq)).
    reflexivity.
Defined.

Lemma slot_zero_rebinds_every_slot_witness :
  exists s' st',
    reassign_slot env_ok 1 2 0 "c@x.org"
      (get_all_annotators_from_task 1 store_zero, mkStats 0 0) store_zero
    = (s', inr st')
    /\ forall b, In b (assignments s') -> Assignment.task_id b = 1%Z ->
         Assignment.annotator_id b = Some "u3".
Proof.
  refine (proj2 (proj2
    (slot_zero_rebinds_every_slot env_ok 1%Z 2%nat 0%nat "c@x.org"
       (get_all_annotators_from_task 1 store_zero, mkStats 0 0) store_zero
       (Annotator.mk (Some "u1") (Some "a@x.org") None 0)
       (fst (assignUserToTask env_ok "c@x.org" 1 store_zero)) "u3"
       _ _ _ _ _ _ _ _))).
  - apply (bool_decide_unpack _). vm_compute. exact I.
  - reflexivity.
  - reflexivity.
  - discriminate.
  - discriminate.
  - discriminate.
  - reflexivity.
  - reflexivity.
Defined.

Lemma updateAssignees_skips_only_unchanged_witness :
  updateAssignees env_ok 1 ["a@x.org"; "b@x.org"] store_ex
  = (store_ex,
     inr (mkReassigned "No changes have been made"
            (get_all_annotators_from_task 1 store_ex)))
  /\ exists s' st',
       reassign_slot env_ok 1 2 0 ""
         (get_all_annotators_from_task 1 store_ex, mkStats 0 0) store_ex
       = (s', inr st')
       /\ users s' = users store_ex
       /\ log s' = [EUpdateAssignment 1 None; EUpdateAssignment 3 None].
Proof.
  destruct (updateAssignees_skips_only_unchanged env_ok 1%Z)
    as (_ & Hempty & Hsame).
  split.
  - apply Hsame. intros [|[|i]] e H; simpl in H; inversion H; subst;
      eexists; split; reflexivity.
  - destruct (Hempty 2%nat 0%nat
                (get_all_annotators_from_task 1 store_ex, mkStats 0 0)
                store_ex
                (Annotator.mk (Some "u1") (Some "a@x.org") None 1))
      as (s' & st' & Hrun & Hu & Hlog & _).
    + apply (bool_decide_unpack _). vm_compute. exact I.
    + reflexivity.
    + discriminate.
    + exists s', st'. split; [exact Hrun|]. split; [exact Hu|].
      rewrite Hlog. reflexivity.
Defined.

(** C1 fails as stated: an empty requested email does not leave the slot
    alone.  Slot 1 of task 1 is bound to u1; after a call that requests the
    empty string for it, its assignments are bound to nobody. *)
Lemma updateAssignees_empty_email_unbinds :
  ["" ; "b@x.org"] !! 0%nat = Some ""
  /\ map Assignment.annotator_id (slot_rows 1 1 store_ex)
     = [Some "u1"; Some "u1"]
  /\ map Assignment.annotator_id
       (slot_rows 1 1
          (fst (updateAssignees env_ok 1 [""; "b@x.org"] store_ex)))
     = [None; None]
  /\ snd (updateAssignees env_ok 1 [""; "b@x.org"] store_ex)
     = inr (mkReassigned "All the assignments have been reassigned"
              [Annotator.mk (Some "u1") (Some "") None 1;
               Annotator.mk (Some "u2") (Some "b@x.org") None 2]).
Proof. repeat split. Qed.

Lemma updateAssignees_resolves_before_rebinding_witness :
  updateAssignees env_invite_fails 1 ["new@x.org"; "c@x.org"] store_ex
  = (store_ex,
     inl (TRPCError INTERNAL_SERVER_ERROR
            "Error inviting: Email rate limit exceeded")).
Proof.
  refine (proj1
    (updateAssignees_resolves_before_rebinding env_invite_fails 1%Z []
       "new@x.org" ["c@x.org"] store_ex store_ex
       (get_all_annotators_from_task 1 store_ex, mkStats 0 0)
       (Annotator.mk (Some "u1") (Some "a@x.org") None 1)
       store_ex
       (inl (TRPCError INTERNAL_SERVER_ERROR
               "Error inviting: Email rate limit exceeded"))
       _ _ _ _ _ _)).
  - reflexivity.
  - apply (bool_decide_unpack _). vm_compute. exact I.
  - reflexivity.
  - discriminate.
  - discriminate.
  - reflexivity.
Defined.

(** C6 fails as stated: a slot whose user cannot be resolved is not skipped
    with a counted failure.  The first slot's invitation fails; the second
    slot's email differs from its current one and would resolve, yet the call
    has ended: the second slot keeps its binding and nothing was logged. *)
Lemma updateAssignees_stops_at_failed_resolution :
  snd (updateAssignees env_invite_fails 1 ["new@x.org"; "c@x.org"] store_ex)
  = inl (TRPCError INTERNAL_SERVER_ERROR
           "Error inviting: Email rate limit exceeded")
  /\ snd (assignUserToTask env_invite_fails "c@x.org" 1 store_ex) = inr "u3"
  /\ map Assignment.annotator_id
       (slot_rows 1 2
          (fst (updateAssignees env_invite_fails 1 ["new@x.org"; "c@x.org"]
                  store_ex)))
     = [Some "u2"]
  /\ log (fst (updateAssignees env_invite_fails 1 ["new@x.org"; "c@x.org"]
                 store_ex)) = [].
Proof. repeat split. Qed.

(** * The relation service and the annotation component *)

(** X1: the two converters are inverse to each other: a serialized relation
    of type "relation" that is converted, stored under any identifier with
    any ends, and converted back is the same relation; and a stored row that
    is serialized and converted back with its own ends has its own fields. *)
Theorem convert_round_trip :
  (forall rel from_id to_id id,
      LSSerializedRelation.type rel = "relation" ->
      convert_db2ls (stored_relation id (convert_ls2db rel from_id to_id))
      = rel)
  /\ (forall r,
        convert_ls2db (convert_db2ls r) (Relation.from_id r) (Relation.to_id r)
        = relation_fields_of r)
  /\ (forall rel from_id to_id id,
        Relation.from_id (stored_relation id (convert_ls2db rel from_id to_id))
        = from_id
        /\ Relation.to_id (stored_relation id (convert_ls2db rel from_id to_id))
           = to_id).
Proof.
  split; [|split].
  - intros [f t l d ty] from_id to_id id Hty. simpl in Hty. subst ty.
    reflexivity.
  - intros r. reflexivity.
  - intros. split; reflexivity.
Qed.

(** X2: [relationDataService.find] returns the relations that leave one of
    the given annotations, and only those: a relation that merely arrives at
    one of them is not returned. *)
Theorem relation_find_leaving anns s r :
  In r (relation_find anns s)
  <-> In r (annotation_relations s)
      /\ In (Relation.from_id r) (map Annotation.id anns).
Proof.
  induction anns as [|a anns IH]; simpl; [tauto|].
  rewrite in_app_iff, filter_In, bool_decide_eq_true, IH.
  intuition congruence.
Qed.

Lemma without_confidence_set_last v l :
  map without_confidence (set_last_confidence v l) = map without_confidence l.
Proof.
  unfold set_last_confidence.
  destruct (List.rev l) as [|x front] eqn:Hrev; [reflexivity|].
  assert (Hl : l = List.rev front ++ [x]).
  { rewrite <- (rev_involutive l), Hrev. reflexivity. }
  rewrite Hl, !map_app. reflexivity.
Qed.

Lemma collect_ls_anns_labels document_level rating input acc :
  map without_confidence (collect_ls_anns document_level rating input acc)
  = map without_confidence (acc ++ List.filter is_label input).
Proof.
  revert acc. induction input as [|ann rest IH]; intros acc; simpl.
  - now rewrite app_nil_r.
  - rewrite IH. unfold is_label at 2.
    destruct (bool_decide (LSItem.from_name ann = Some "label")).
    + now rewrite <- app_assoc.
    + rewrite !map_app. f_equal.
      repeat match goal with
             | |- context [if ?b then _ else _] => destruct b
             end; try reflexivity; apply without_confidence_set_last.
Qed.

Lemma collect_ls_anns_no_rating rating input acc :
  (forall x, In x input -> LSItem.from_name x <> Some "ann_confidence") ->
  collect_ls_anns false rating input acc = acc ++ List.filter is_label input.
Proof.
  revert acc. induction input as [|ann rest IH]; intros acc H; simpl.
  - now rewrite app_nil_r.
  - rewrite IH by (intros x Hx; apply H; now right).
    unfold is_label at 2.
    destruct (bool_decide (LSItem.from_name ann = Some "label")).
    + now rewrite <- app_assoc.
    + rewrite (bool_decide_eq_false_2
                 (LSItem.from_name ann = Some "ann_confidence"))
        by (apply H; now left).
      simpl. now destruct (0 <? length acc)%nat.
Qed.

(** X3: the confidence pass of [updateAnnotationsAndRelations] keeps exactly
    the labelled entries, in their order: it drops, adds and reorders
    nothing, and touches no field but the confidence; without a confidence
    entry, below document level, it changes nothing at all. *)
Theorem collect_ls_anns_keeps_labels document_level rating input :
  map without_confidence (collect_ls_anns document_level rating input [])
  = map without_confidence (List.filter is_label input)
  /\ length (collect_ls_anns document_level rating input [])
     = length (List.filter is_label input)
  /\ ((forall x, In x input -> LSItem.from_name x <> Some "ann_confidence") ->
      collect_ls_anns false rating input [] = List.filter is_label input).
Proof.
  pose proof (collect_ls_anns_labels document_level rating input []) as H.
  split; [exact H|]. split.
  - apply (f_equal (@length _)) in H. now rewrite !length_map in H.
  - intros Hno. now rewrite collect_ls_anns_no_rating.
Qed.

Lemma relation_ends_from_miss l rel from to :
  ((forall b, In b l -> Annotation.ls_id b <> LSSerializedRelation.from_id rel)
   -> fst (relation_ends_from l rel from to) = from)
  /\ ((forall b, In b l -> Annotation.ls_id b <> LSSerializedRelation.to_id rel)
      -> snd (relation_ends_from l rel from to) = to).
Proof.
  revert from to. induction l as [|a l IH]; intros from to; simpl;
    [split; reflexivity|].
  split; intros H.
  - rewrite (proj1 (IH _ _)) by (intros b Hb; apply H; now right).
    rewrite bool_decide_eq_false_2; [reflexivity|]. apply H. now left.
  - rewrite (proj2 (IH _ _)) by (intros b Hb; apply H; now right).
    rewrite bool_decide_eq_false_2; [reflexivity|]. apply H. now left.
Qed.

Lemma relation_ends_from_hit pre a post rel from to :
  ((forall b, In b post ->
      Annotation.ls_id b <> LSSerializedRelation.from_id rel) ->
   Annotation.ls_id a = LSSerializedRelation.from_id rel ->
   fst (relation_ends_from (pre ++ a :: post) rel from to) = Annotation.id a)
  /\ ((forall b, In b post ->
         Annotation.ls_id b <> LSSerializedRelation.to_id rel) ->
      Annotation.ls_id a = LSSerializedRelation.to_id rel ->
      snd (relation_ends_from (pre ++ a :: post) rel from to)
      = Annotation.id a).
Proof.
  revert from to. induction pre as [|p pre IH]; intros from to.
  - simpl. split; intros Hpost Ha.
    + rewrite (proj1 (relation_ends_from_miss post rel _ _)) by exact Hpost.
      now rewrite bool_decide_eq_true_2.
    + rewrite (proj2 (relation_ends_from_miss post rel _ _)) by exact Hpost.
      now rewrite bool_decide_eq_true_2.
  - simpl. apply IH.
Qed.

(** X4: the end of a relation is resolved to the identifier of the last
    created annotation that has the relation's widget identifier, hence to
    the one annotation that has it when widget identifiers are distinct; an
    end that no created annotation has is resolved to -1. *)
Theorem relation_ends_resolution created_anns rel :
  ((forall b, In b created_anns ->
      Annotation.ls_id b <> LSSerializedRelation.from_id rel) ->
   fst (relation_ends created_anns rel) = (-1)%Z)
  /\ ((forall b, In b created_anns ->
         Annotation.ls_id b <> LSSerializedRelation.to_id rel) ->
      snd (relation_ends created_anns rel) = (-1)%Z)
  /\ (forall pre a post,
        created_anns = pre ++ a :: post ->
        (forall b, In b post ->
           Annotation.ls_id b <> LSSerializedRelation.from_id rel) ->
        Annotation.ls_id a = LSSerializedRelation.from_id rel ->
        fst (relation_ends created_anns rel) = Annotation.id a)
  /\ (forall pre a post,
        created_anns = pre ++ a :: post ->
        (forall b, In b post ->
           Annotation.ls_id b <> LSSerializedRelation.to_id rel) ->
        Annotation.ls_id a = LSSerializedRelation.to_id rel ->
        snd (relation_ends created_anns rel) = Annotation.id a)
  /\ (NoDup (map Annotation.ls_id created_anns) ->
      forall a b,
        In a created_anns -> In b created_anns ->
        Annotation.ls_id a = LSSerializedRelation.from_id rel ->
        Annotation.ls_id b = LSSerializedRelation.to_id rel ->
        relation_ends created_anns rel = (Annotation.id a, Annotation.id b)).
Proof.
  unfold relation_ends.
  split; [apply relation_ends_from_miss|].
  split; [apply relation_ends_from_miss|].
  split; [intros pre a post ->; apply relation_ends_from_hit|].
  split; [intros pre a post ->; apply relation_ends_from_hit|].
  intros Hnd a b Ha Hb Hfa Htb.
  assert (Hlast : forall x k, In x created_anns -> Annotation.ls_id x = k ->
            exists pre post, created_anns = pre ++ x :: post
              /\ forall y, In y post -> Annotation.ls_id y <> k).
  { intros x k Hx Hk. apply in_split in Hx as (pre & post & Hsplit).
    exists pre, post. split; [exact Hsplit|].
    intros y Hy Hyk. rewrite Hsplit, map_app in Hnd. simpl in Hnd.
    apply NoDup_app in Hnd as (_ & _ & Hnd).
    apply NoDup_cons in Hnd as [Hni _]. apply Hni.
    rewrite Hk, <- Hyk. apply list_elem_of_In. now apply in_map. }
  destruct (Hlast a _ Ha Hfa) as (pre1 & post1 & H1 & Hp1).
  destruct (Hlast b _ Hb Htb) as (pre2 & post2 & H2 & Hp2).
  rewrite (surjective_pairing (relation_ends_from _ _ _ _)). f_equal.
  - rewrite H1. now apply relation_ends_from_hit.
  - rewrite H2. now apply relation_ends_from_hit.
Qed.

(** * The other queries of the assignment router *)

Lemma StronglySorted_weaken {A} (R S : A -> A -> Prop) (l : list A) :
  (forall x y, R x y -> S x y) -> StronglySorted R l -> StronglySorted S l.
Proof.
  intros HRS. induction 1 as [|x l Hs IH Hx]; constructor; [exact IH|].
  eapply List.Forall_impl; [|exact Hx]. intros y. apply HRS.
Qed.

(** X5: [findAssignmentsByTaskAndUser] returns, ordered by identifier, the
    assignments of the task that pass the optional filters, where an empty
    annotator identifier and a slot number 0 switch their filter off like
    an absent value. *)
Theorem findAssignmentsByTaskAndUser_rows annotator_id annotator_number
    task_id s :
  exists rows,
    findAssignmentsByTaskAndUser annotator_id annotator_number task_id s
    = inr rows
    /\ StronglySorted
         (fun a b => (Assignment.id a <= Assignment.id b)%Z) rows
    /\ forall a,
         In a rows
         <-> In a (assignments s)
             /\ Assignment.task_id a = task_id
             /\ (forall u, annotator_id = Some u -> u <> ""%string ->
                   Assignment.annotator_id a = Some u)
             /\ (forall n, annotator_number = Some n -> n <> 0%Z ->
                   Assignment.annotator_number a = n).
Proof.
  unfold findAssignmentsByTaskAndUser. eexists. split; [reflexivity|]. split.
  - eapply StronglySorted_weaken;
      [|apply (order_sorted by_id_asc by_id_asc_total by_id_asc_trans)].
    intros a b H. unfold by_id_asc in H. lia.
  - intros a. rewrite order_In.
    destruct annotator_number as [n|], annotator_id as [u|];
      try destruct (truthy_Z n) eqn:Hn;
      try destruct (truthy_string u) eqn:Hu;
      rewrite ?filter_In; unfold of_task, of_annotator;
      rewrite ?bool_decide_eq_true;
      unfold truthy_Z, truthy_string in *;
      rewrite ?negb_true_iff, ?negb_false_iff, ?Z.eqb_neq, ?Z.eqb_eq,
        ?bool_decide_eq_false, ?bool_decide_eq_true in *;
      split; intros H; intuition (try congruence);
      repeat match goal with
             | Hx : forall u, Some _ = Some u -> _ |- _ =>
                 specialize (Hx _ eq_refl)
             end; intuition congruence.
Qed.

Lemma filter_comm {A} (f g : A -> bool) (l : list A) :
  List.filter f (List.filter g l) = List.filter g (List.filter f l).
Proof.
  induction l as [|x l IH]; simpl; [reflexivity|].
  destruct (f x) eqn:Hf, (g x) eqn:Hg; simpl; rewrite ?Hf, ?Hg, IH;
    reflexivity.
Qed.

(** X6: the sequencer's two views agree: when [findNextAssignmentByUser]
    returns an assignment, [countAssignmentsByUserAndTask] for that
    assignment's task reports its sequence position as [next]; when it
    returns [null], [next] is [total + 1] in every task. *)
Theorem next_assignment_agrees_with_count user_id s :
  (forall a,
      findNextAssignmentByUser user_id s = inr (Some a) ->
      exists nt,
        countAssignmentsByUserAndTask user_id (Assignment.task_id a) s = inr nt
        /\ next nt = Assignment.seq_pos a)
  /\ (findNextAssignmentByUser user_id s = inr None ->
      forall task_id,
        exists nt,
          countAssignmentsByUserAndTask user_id task_id s = inr nt
          /\ next nt = (total nt + 1)%Z).
Proof.
  unfold findNextAssignmentByUser, countAssignmentsByUserAndTask.
  rewrite maybeSingle_limit_1. cbn [error data].
  set (pendingU := List.filter is_pending
                     (List.filter (of_annotator user_id) (assignments s))).
  split.
  - intros a Ha. injection Ha as Ha.
    rewrite maybeSingle_limit_1. cbn [error data count select_count].
    eexists. split; [reflexivity|]. cbn [next default].
    set (P := List.filter is_pending
                (List.filter (of_task (Assignment.task_id a))
                   (List.filter (of_annotator user_id) (assignments s)))).
    destruct (order by_task_desc_seq_asc pendingU) as [|x0 rest0] eqn:Ho0;
      [discriminate|].
    simpl in Ha. injection Ha as ->.
    assert (HaU : In a pendingU).
    { apply (order_In by_task_desc_seq_asc). rewrite Ho0. now left. }
    assert (HaP : In a P).
    { unfold P, pendingU in *. rewrite !filter_In in *.
      unfold of_task. rewrite bool_decide_eq_true. tauto. }
    destruct (order by_seq_pos_asc P) as [|x rest] eqn:Ho.
    { apply order_nil_inv in Ho. rewrite Ho in HaP. destruct HaP. }
    cbn [map head].
    assert (HxP : In x P).
    { apply (order_In by_seq_pos_asc). rewrite Ho. now left. }
    pose proof (order_head_min by_seq_pos_asc by_seq_pos_asc_total
                  by_seq_pos_asc_trans x rest P Ho a HaP) as H1.
    assert (HxU : In x pendingU /\ Assignment.task_id x = Assignment.task_id a).
    { unfold P, pendingU in *. rewrite !filter_In in *.
      unfold of_task in HxP. rewrite bool_decide_eq_true in HxP. tauto. }
    destruct HxU as [HxU Hxt].
    pose proof (order_head_min by_task_desc_seq_asc
                  by_task_desc_seq_asc_total by_task_desc_seq_asc_trans
                  a rest0 pendingU Ho0 x HxU) as H2.
    apply by_task_desc_seq_asc_spec in H2.
    unfold by_seq_pos_asc in H1. lia.
  - intros Hnone task_id. injection Hnone as Hnone.
    rewrite maybeSingle_limit_1. cbn [error data count select_count].
    eexists. split; [reflexivity|]. cbn [next total default].
    destruct (order by_task_desc_seq_asc pendingU) as [|x0 rest0] eqn:Ho0;
      [|discriminate].
    apply order_nil_inv in Ho0.
    assert (HP : List.filter is_pending
                   (List.filter (of_task task_id)
                      (List.filter (of_annotator user_id) (assignments s)))
                 = []).
    { rewrite filter_comm. fold pendingU. rewrite Ho0. reflexivity. }
    rewrite HP. reflexivity.
Qed.

(** X7: the position that [countAssignmentsByUserAndTask] reports while
    something is pending can be fetched: when the annotator's sequence
    positions in the task are distinct, [findAssignmentsByUserTaskSeq] for
    [next] returns a pending assignment at that position; and a position
    that no assignment of the annotator in the task has is an
    INTERNAL_SERVER_ERROR. *)
Theorem next_position_is_fetchable annotator_id task_id s :
  let mine := assignments_of annotator_id task_id s in
  (List.filter is_pending mine <> [] ->
   NoDup (map Assignment.seq_pos mine) ->
   exists nt a,
     countAssignmentsByUserAndTask annotator_id task_id s = inr nt
     /\ findAssignmentsByUserTaskSeq annotator_id task_id (next nt) s
        = inr (Some a)
     /\ In a mine
     /\ Assignment.status a = PENDING
     /\ Assignment.seq_pos a = next nt)
  /\ (forall seq_pos,
        (forall a, In a mine -> Assignment.seq_pos a <> seq_pos) ->
        findAssignmentsByUserTaskSeq annotator_id task_id seq_pos s
        = inl (TRPCError INTERNAL_SERVER_ERROR
                 ("Error in findAssignmentsByUserTaskSeq: "
                  ++ no_single_row)%string)).
Proof.
  intros mine.
  assert (Hmine : List.filter (of_annotator annotator_id)
                    (List.filter (of_task task_id) (assignments s)) = mine).
  { unfold mine, assignments_of. apply filter_comm. }
  split.
  - intros Hpend Hnd.
    unfold countAssignmentsByUserAndTask.
    rewrite maybeSingle_limit_1. cbn [error data count select_count].
    fold (assignments_of annotator_id task_id s). fold mine.
    destruct (order by_seq_pos_asc (List.filter is_pending mine))
      as [|x rest] eqn:Ho.
    { apply order_nil_inv in Ho. contradiction. }
    assert (Hx : In x (List.filter is_pending mine)).
    { apply (order_In by_seq_pos_asc). rewrite Ho. now left. }
    apply filter_In in Hx as [Hx Hp].
    unfold is_pending in Hp. apply bool_decide_eq_true in Hp.
    eexists _, x. split; [reflexivity|]. cbn [map head next].
    split; [|auto].
    unfold findAssignmentsByUserTaskSeq. rewrite Hmine.
    now rewrite (filter_unique Assignment.seq_pos mine x Hnd Hx).
  - intros seq_pos Hno.
    unfold findAssignmentsByUserTaskSeq. rewrite Hmine, filter_none.
    + reflexivity.
    + intros a Ha. apply bool_decide_eq_false_2. now apply Hno.
Qed.

(** X8: neither [findById] ever answers NOT_FOUND: an identifier that no
    row has is reported as an INTERNAL_SERVER_ERROR carrying the store's
    no-row error, and an identifier of exactly one row gives that row. *)
Theorem findById_never_not_found id s :
  (forall m, task_findById id s <> inl (TRPCError NOT_FOUND m))
  /\ (forall m, assignment_findById id s <> inl (TRPCError NOT_FOUND m))
  /\ (~ In id (map Task.id (tasks s)) ->
      task_findById id s
      = inl (TRPCError INTERNAL_SERVER_ERROR
               ("Error in tasks.findById: " ++ no_single_row)%string))
  /\ (~ In id (map Assignment.id (assignments s)) ->
      assignment_findById id s
      = inl (TRPCError INTERNAL_SERVER_ERROR
               ("Error in find: " ++ no_single_row)%string))
  /\ (forall a, NoDup (map Assignment.id (assignments s)) ->
        In a (assignments s) -> Assignment.id a = id ->
        assignment_findById id s = inr (Some a))
  /\ (forall t, NoDup (map Task.id (tasks s)) ->
        In t (tasks s) -> Task.id t = id ->
        task_findById id s = inr (Some t)).
Proof.
  assert (Hsingle : forall A (l : list A),
             count (single l) = None
             /\ (error (single l) = None \/ data (single l) = None)).
  { intros A [|x [|y l]]; simpl; auto. }
  split; [|split; [|split; [|split; [|split]]]].
  - intros m. unfold task_findById.
    destruct (Hsingle _ (List.filter (fun t => bool_decide (Task.id t = id))
                           (tasks s))) as [-> _].
    simpl. unfold internal. destruct (error _); discriminate.
  - intros m. unfold assignment_findById.
    destruct (Hsingle _ (List.filter
                           (fun a => bool_decide (Assignment.id a = id))
                           (assignments s))) as [-> _].
    simpl. unfold internal. destruct (error _); discriminate.
  - intros Hni. unfold task_findById. rewrite filter_none; [reflexivity|].
    intros t Ht. apply bool_decide_eq_false_2. intros <-.
    apply Hni. now apply in_map.
  - intros Hni. unfold assignment_findById.
    rewrite filter_none; [reflexivity|].
    intros a Ha. apply bool_decide_eq_false_2. intros <-.
    apply Hni. now apply in_map.
  - intros a Hnd Ha <-. unfold assignment_findById.
    now rewrite (filter_unique Assignment.id (assignments s) a Hnd Ha).
  - intros t Hnd Ht <-. now apply task_findById_found.
Qed.

(** * The SQL functions *)

Section GroupBy.
Context {A K : Type} `{EqDecision K} (key : A -> K).

Lemma group_by_In seen l x :
  In x (group_by key seen l) -> In x l /\ ~ In (key x) seen.
Proof.
  revert seen. induction l as [|y l IH]; intros seen; simpl; [tauto|].
  case_bool_decide as Hy.
  - intros H. apply IH in H. tauto.
  - intros [<-|H].
    + split; [now left|]. now rewrite <- list_elem_of_In.
    + apply IH in H as [H1 H2]. split; [now right|].
      intros H3. apply H2. now right.
Qed.

Lemma group_by_NoDup seen l : NoDup (map key (group_by key seen l)).
Proof.
  revert seen. induction l as [|y l IH]; intros seen; simpl;
    [constructor|].
  case_bool_decide as Hy; [apply IH|].
  simpl. apply NoDup_cons. split; [|apply IH].
  intros Hin. apply list_elem_of_In, in_map_iff in Hin as (z & Hz & Hin).
  apply group_by_In in Hin as [_ Hin]. apply Hin. rewrite Hz. now left.
Qed.

Lemma group_by_complete seen l x :
  In x l -> ~ In (key x) seen ->
  In (key x) (map key (group_by key seen l)).
Proof.
  revert seen. induction l as [|y l IH]; intros seen; simpl; [tauto|].
  intros [->|Hx] Hseen.
  - rewrite bool_decide_eq_false_2 by (now rewrite list_elem_of_In).
    now left.
  - case_bool_decide as Hy; [now apply IH|].
    simpl. destruct (decide (key y = key x)) as [Heq|Hne]; [now left|].
    right. apply IH; [exact Hx|].
    intros [H|H]; [contradiction|now apply Hseen].
Qed.
End GroupBy.

Lemma nil_of_no_elem {A} (l : list A) : (forall x, ~ In x l) -> l = [].
Proof.
  destruct l as [|x l]; [reflexivity|]. intros H. destruct (H x). now left.
Qed.

Lemma annotator_rows_spec s a r :
  In r (annotator_rows s a) ->
  Annotator.annotator_number r = Assignment.annotator_number a.
Proof.
  unfold annotator_rows.
  destruct (List.filter _ (users s)) as [|u us].
  - intros [<-|[]]. reflexivity.
  - intros H. apply in_map_iff in H as (u' & <- & _). reflexivity.
Qed.

Lemma annotator_rows_nonempty s a : annotator_rows s a <> [].
Proof.
  unfold annotator_rows. destruct (List.filter _ (users s)); discriminate.
Qed.

(** X9: [get_all_annotators_from_task] lists its rows by ascending slot
    number, with no two rows for the same user and slot; for a task that
    exists the slot numbers listed are exactly those of the task's
    assignments, and for a task that does not exist, or has no assignment,
    the list is empty. *)
Theorem get_all_annotators_from_task_rows t_id s :
  let rows := get_all_annotators_from_task t_id s in
  StronglySorted
    (fun x y => (Annotator.annotator_number x
                 <= Annotator.annotator_number y)%Z) rows
  /\ NoDup (map (fun r => (Annotator.id r, Annotator.annotator_number r)) rows)
  /\ (forall n,
        In n (map Annotator.annotator_number rows) ->
        exists a, In a (assignments s) /\ Assignment.task_id a = t_id
                  /\ Assignment.annotator_number a = n)
  /\ (In t_id (map Task.id (tasks s)) ->
      forall a, In a (assignments s) -> Assignment.task_id a = t_id ->
        In (Assignment.annotator_number a)
          (map Annotator.annotator_number rows))
  /\ (~ In t_id (map Task.id (tasks s)) -> rows = [])
  /\ ((forall a, In a (assignments s) -> Assignment.task_id a <> t_id) ->
      rows = []).
Proof.
  intros rows. unfold rows, get_all_annotators_from_task.
  set (leb := fun x y : Annotator.t =>
                (Annotator.annotator_number x
                 <=? Annotator.annotator_number y)%Z).
  set (keyf := fun r : Annotator.t =>
                 (Annotator.id r, Annotator.annotator_number r)).
  set (joined := flat_map _ (tasks s)).
  assert (Hjoined : forall r, In r joined <->
            exists t a, In t (tasks s) /\ In a (assignments s)
              /\ Task.id t = Assignment.task_id a /\ Task.id t = t_id
              /\ In r (annotator_rows s a)).
  { intros r. unfold joined. rewrite in_flat_map. split.
    - intros (t & Ht & Hr). apply in_flat_map in Hr as (a & Ha & Hr).
      destruct (bool_decide (Task.id t = Assignment.task_id a)) eqn:H1;
        [|destruct Hr].
      destruct (bool_decide (Task.id t = t_id)) eqn:H2; [|destruct Hr].
      apply bool_decide_eq_true in H1, H2. eauto 10.
    - intros (t & a & Ht & Ha & H1 & H2 & Hr). exists t. split; [exact Ht|].
      apply in_flat_map. exists a. split; [exact Ha|].
      now rewrite !bool_decide_eq_true_2. }
  split; [|split; [|split; [|split; [|split]]]].
  - eapply StronglySorted_weaken; [|apply (order_sorted leb)].
    + intros x y H. unfold leb in H. lia.
    + intros x y. unfold leb. lia.
    + intros x y z. unfold leb. lia.
  - eapply NoDup_Permutation_proper;
      [apply Permutation_map, order_perm|apply group_by_NoDup].
  - intros n Hn. apply in_map_iff in Hn as (r & <- & Hr).
    apply order_In, group_by_In in Hr as [Hr _].
    apply Hjoined in Hr as (t & a & _ & Ha & H1 & H2 & Hr).
    exists a. split; [exact Ha|]. split; [congruence|].
    symmetry. now apply (annotator_rows_spec s).
  - intros Ht a Ha Hta.
    apply in_map_iff in Ht as (t & Htid & Ht).
    destruct (annotator_rows s a) as [|r rs] eqn:Hrows;
      [exfalso; exact (annotator_rows_nonempty s a Hrows)|].
    assert (Hr : In r joined).
    { apply Hjoined. exists t, a. rewrite Hrows.
      repeat split; try assumption; [congruence|now left]. }
    pose proof (group_by_complete keyf [] joined r Hr (fun H => H)) as Hk.
    apply in_map_iff in Hk as (r' & Hkey & Hr').
    apply in_map_iff. exists r'. split.
    + unfold keyf in Hkey. injection Hkey as _ ->.
      apply (annotator_rows_spec s). rewrite Hrows. now left.
    + now apply order_In.
  - intros Hni.
    assert (Hnil : joined = []).
    { apply nil_of_no_elem. intros r Hr.
      apply Hjoined in Hr as (t & _ & Ht & _ & _ & H2 & _).
      apply Hni. rewrite <- H2. now apply in_map. }
    rewrite Hnil. reflexivity.
  - intros Hno.
    assert (Hnil : joined = []).
    { apply nil_of_no_elem. intros r Hr.
      apply Hjoined in Hr as (t & a & _ & Ha & H1 & H2 & _).
      apply (Hno a Ha). congruence. }
    rewrite Hnil. reflexivity.
Qed.

(** X10: [get_all_docs_from_task] lists documents of the store by ascending
    identifier, each identifier once, and an identifier is listed exactly
    when some assignment of the task refers to a document that has it. *)
Theorem get_all_docs_from_task_rows t_id s :
  let rows := get_all_docs_from_task t_id s in
  StronglySorted (fun x y => (Document.id x <= Document.id y)%Z) rows
  /\ NoDup (map Document.id rows)
  /\ (forall d, In d rows -> In d (documents s))
  /\ (forall i,
        In i (map Document.id rows)
        <-> exists d a,
              In d (documents s) /\ In a (assignments s)
              /\ Document.id d = i
              /\ Assignment.document_id a = i
              /\ Assignment.task_id a = t_id).
Proof.
  intros rows. unfold rows, get_all_docs_from_task.
  set (leb := fun x y : Document.t => (Document.id x <=? Document.id y)%Z).
  set (joined := flat_map _ (documents s)).
  assert (Hjoined : forall d, In d joined <->
            In d (documents s)
            /\ exists a, In a (assignments s)
                 /\ Assignment.document_id a = Document.id d
                 /\ Assignment.task_id a = t_id).
  { intros d. unfold joined. rewrite in_flat_map. split.
    - intros (d' & Hd' & Hd). apply in_flat_map in Hd as (a & Ha & Hd).
      destruct (bool_decide (Assignment.document_id a = Document.id d'))
        eqn:H1; [|destruct Hd].
      destruct (bool_decide (Assignment.task_id a = t_id)) eqn:H2;
        [|destruct Hd].
      apply bool_decide_eq_true in H1, H2.
      destruct Hd as [<-|[]]. eauto.
    - intros (Hd & a & Ha & H1 & H2). exists d. split; [exact Hd|].
      apply in_flat_map. exists a. split; [exact Ha|].
      rewrite !bool_decide_eq_true_2 by assumption. now left. }
  split; [|split; [|split]].
  - eapply StronglySorted_weaken; [|apply (order_sorted leb)].
    + intros x y H. unfold leb in H. lia.
    + intros x y. unfold leb. lia.
    + intros x y z. unfold leb. lia.
  - eapply NoDup_Permutation_proper;
      [apply Permutation_map, order_perm|apply group_by_NoDup].
  - intros d Hd. apply order_In, group_by_In in Hd as [Hd _].
    now apply Hjoined in Hd.
  - intros i. split.
    + intros Hi. apply in_map_iff in Hi as (d & <- & Hd).
      apply order_In, group_by_In in Hd as [Hd _].
      apply Hjoined in Hd as (Hd & a & Ha & H1 & H2). eauto 10.
    + intros (d & a & Hd & Ha & <- & H1 & H2).
      assert (Hj : In d joined) by (apply Hjoined; eauto).
      pose proof (group_by_complete Document.id [] joined d Hj (fun H => H))
        as Hk.
      apply in_map_iff in Hk as (d' & Hkey & Hd').
      apply in_map_iff. exists d'. split; [exact Hkey|]. now apply order_In.
Qed.

(** X11: [get_unannotated_documents] lists each document once, and a
    document is listed exactly when the task exists and one of its
    assignments on that document has no annotation, also when another
    assignment on the same document has some. *)
Theorem get_unannotated_documents_rows task_id_param s :
  let rows := get_unannotated_documents task_id_param s in
  NoDup rows
  /\ forall d,
       In d rows
       <-> In task_id_param (map Task.id (tasks s))
           /\ exists a,
                In a (assignments s)
                /\ Assignment.task_id a = task_id_param
                /\ Assignment.document_id a = d
                /\ forall an, In an (annotations s) ->
                     Annotation.assignment_id an <> Assignment.id a.
Proof.
  intros rows. unfold rows, get_unannotated_documents.
  set (joined := flat_map _ (assignments s)).
  assert (Hjoined : forall d, In d joined <->
            In task_id_param (map Task.id (tasks s))
            /\ exists a,
                 In a (assignments s)
                 /\ Assignment.task_id a = task_id_param
                 /\ Assignment.document_id a = d
                 /\ forall an, In an (annotations s) ->
                      Annotation.assignment_id an <> Assignment.id a).
  { intros d. unfold joined. rewrite in_flat_map. split.
    - intros (a & Ha & Hd). apply in_flat_map in Hd as (t & Ht & Hd).
      destruct (bool_decide (Assignment.task_id a = Task.id t)) eqn:H1;
        [|destruct Hd].
      destruct (bool_decide (Task.id t = task_id_param)) eqn:H2;
        [|destruct Hd].
      destruct (existsb _ (annotations s)) eqn:H3; [destruct Hd|].
      apply bool_decide_eq_true in H1, H2.
      destruct Hd as [<-|[]]. split.
      + rewrite <- H2. now apply in_map.
      + exists a. repeat split; [exact Ha|congruence|].
        intros an Han Heq.
        assert (Hex : existsb
                        (fun an0 => bool_decide
                           (Annotation.assignment_id an0 = Assignment.id a))
                        (annotations s) = true).
        { apply existsb_exists. exists an. split; [exact Han|].
          now apply bool_decide_eq_true_2. }
        congruence.
    - intros (Ht & a & Ha & H1 & H2 & H3).
      apply in_map_iff in Ht as (t & Htid & Ht).
      exists a. split; [exact Ha|]. apply in_flat_map. exists t.
      split; [exact Ht|].
      rewrite !bool_decide_eq_true_2 by congruence.
      rewrite existsb_none; [simpl; now left|].
      intros an Han. apply bool_decide_eq_false_2. now apply H3. }
  split.
  - pose proof (group_by_NoDup (fun d : Z => d) [] joined) as H.
    now rewrite map_id in H.
  - intros d. rewrite <- Hjoined. split.
    + intros H. now apply (group_by_In (fun d : Z => d)) in H.
    + intros H.
      pose proof (group_by_complete (fun d : Z => d) [] joined d H
                    (fun H => H)) as Hk.
      now rewrite map_id in Hk.
Qed.

(** * Reassignment: what is never touched *)

Lemma rebinding_only_refl s : rebinding_only s s.
Proof.
  unfold rebinding_only.
  repeat apply conj; first [reflexivity|exists []; now rewrite app_nil_r].
Qed.

Lemma rebinding_only_trans s1 s2 s3 :
  rebinding_only s1 s2 -> rebinding_only s2 s3 -> rebinding_only s1 s3.
Proof.
  intros (A1 & A2 & A3 & A4 & A5 & A6 & A7 & A8 & A9 & [u1 A10] & [e1 A11])
         (B1 & B2 & B3 & B4 & B5 & B6 & B7 & B8 & B9 & [u2 B10] & [e2 B11]).
  unfold rebinding_only. repeat apply conj; try congruence.
  - exists (u1 ++ u2). now rewrite B10, A10, app_assoc.
  - exists (e1 ++ e2). now rewrite B11, A11, app_assoc.
Qed.

Section RebindingOnly.
Variable env : Env.

Lemma assignment_update_rebinding id v s :
  rebinding_only s (fst (assignment_update env id v s)).
Proof.
  unfold assignment_update. destruct (error _); simpl;
    [apply rebinding_only_refl|].
  unfold rebinding_only. simpl. repeat apply conj;
    first [ reflexivity
          | exists []; now rewrite app_nil_r
          | eexists; reflexivity
          | idtac ].
  rewrite map_map. apply map_ext. intros a. now destruct (bool_decide _).
Qed.

Lemma assignUserToTask_rebinding email task_id s :
  rebinding_only s (fst (assignUserToTask env email task_id s)).
Proof.
  unfold assignUserToTask.
  repeat match goal with
         | |- context [match ?x with _ => _ end] => destruct x
         end; unfold rebinding_only; simpl;
    repeat apply conj;
    first [ reflexivity
          | exists []; now rewrite app_nil_r
          | eexists; reflexivity
          | eexists; rewrite <- app_assoc; reflexivity ].
Qed.

Lemma rebind_rebinding l v stats s :
  rebinding_only s (fst (rebind env l v stats s)).
Proof.
  revert stats s. induction l as [|a l IH]; intros stats s;
    [apply rebinding_only_refl|].
  cbn [rebind]. unfold bind at 1, try_catch, bind at 1.
  pose proof (assignment_update_rebinding (Assignment.id a) v s) as H.
  destruct (assignment_update env (Assignment.id a) v s) as [s1 [e|r]];
    cbn [ret fst] in *;
    (eapply rebinding_only_trans; [exact H|apply IH]).
Qed.

Lemma reassign_slot_rebinding task_id len i e st s :
  rebinding_only s (fst (reassign_slot env task_id len i e st s)).
Proof.
  unfold reassign_slot.
  destruct (fst st !! i) as [a|]; [|apply rebinding_only_refl].
  destruct (loose_neq e (Annotator.email a)); [|apply rebinding_only_refl].
  unfold bind at 1, query. rewrite findAssignmentsByTaskAndUser_slot.
  unfold bind at 1.
  destruct (truthy_string e && truthy_nat len).
  - unfold bind at 1.
    pose proof (assignUserToTask_rebinding e task_id s) as H.
    destruct (assignUserToTask env e task_id s) as [s1 [x|u]];
      cbn [fst ret] in *; [exact H|].
    unfold bind.
    pose proof (rebind_rebinding
                  (slot_rows task_id (Annotator.annotator_number a) s)
                  (Some u) (snd st) s1) as H2.
    destruct (rebind env _ (Some u) (snd st) s1) as [s2 [x|st2]];
      cbn [fst ret] in *; eapply rebinding_only_trans; eassumption.
  - cbn [ret]. unfold bind.
    pose proof (rebind_rebinding
                  (slot_rows task_id (Annotator.annotator_number a) s)
                  None (snd st) s) as H2.
    destruct (rebind env _ None (snd st) s) as [s2 [x|st2]];
      cbn [fst ret] in *; exact H2.
Qed.

Lemma reassign_from_rebinding task_id len emails i st s :
  rebinding_only s (fst (reassign_from env task_id len i emails st s)).
Proof.
  revert i st s. induction emails as [|e rest IH]; intros i st s;
    [apply rebinding_only_refl|].
  cbn [reassign_from]. unfold bind.
  pose proof (reassign_slot_rebinding task_id len i e st s) as H.
  destruct (reassign_slot env task_id len i e st s) as [s1 [x|st1]];
    cbn [fst] in *; [exact H|].
  eapply rebinding_only_trans; [exact H|apply IH].
Qed.
End RebindingOnly.

(** X12: whatever its outcome, [updateAssignees] leaves the work history
    intact: tasks, documents, annotations and relations are untouched, no
    assignment is added, removed or reordered, and of an assignment only the
    annotator may change; users and log entries are only appended. *)
Theorem updateAssignees_changes_bindings_only env task_id new_emails s :
  rebinding_only s (fst (updateAssignees env task_id new_emails s)).
Proof.
  unfold updateAssignees, bind at 1, query, getAllAnnotatorsFromTask.
  unfold bind.
  pose proof (reassign_from_rebinding env task_id (length new_emails)
                new_emails 0
                (get_all_annotators_from_task task_id s, mkStats 0 0) s) as H.
  destruct (reassign_from env task_id (length new_emails) 0 new_emails _ s)
    as [s1 [x|st1]]; exact H.
Qed.

(** X13: the inner loop of [updateAssignees] never throws: every fetched
    assignment is counted exactly once, as a success or as a failure, and
    the successes are exactly the updates it committed. *)
Theorem rebind_counts_each_once env l v stats s :
  exists s' stats',
    rebind env l v stats s = (s', inr stats')
    /\ (success stats' + failed stats'
        = success stats + failed stats + length l)%nat
    /\ (success stats <= success stats')%nat
    /\ (failed stats <= failed stats')%nat
    /\ updates_in (log s')
       = (updates_in (log s) + (success stats' - success stats))%nat.
Proof.
  destruct (rebind_counts env l v stats s) as (s' & stats' & Hr & H1 & H2).
  exists s', stats'. split; [exact Hr|].
  assert (Hmono : forall l stats s s' stats',
             rebind env l v stats s = (s', inr stats') ->
             (success stats <= success stats')%nat
             /\ (failed stats <= failed stats')%nat).
  { clear. induction l as [|a l IH]; intros stats s s' stats'.
    - simpl. unfold ret. intros [= <- <-]. lia.
    - cbn [rebind]. unfold bind at 1, try_catch, bind at 1.
      destruct (assignment_update env (Assignment.id a) v s) as [s1 [e|r]];
        cbn [ret]; intros H; apply IH in H; cbn [success failed] in H; lia. }
  destruct (Hmono l stats s s' stats' Hr). repeat split; lia.
Qed.

(** * Reassignment: the annotators that are returned *)

Lemma with_email_same a e :
  Annotator.email a = Some e -> Annotator.with_email (Some e) a = a.
Proof. destruct a. simpl. now intros ->. Qed.

Section ReturnedAnnotators.
Variable env : Env.

Lemma reassign_slot_annotators task_id len i e st s s' st' :
  reassign_slot env task_id len i e st s = (s', inr st') ->
  exists a0, fst st !! i = Some a0
    /\ fst st' = <[i := Annotator.with_email (Some e) a0]> (fst st).
Proof.
  unfold reassign_slot.
  destruct (fst st !! i) as [a|] eqn:Hi; [|discriminate].
  intros H. exists a. split; [reflexivity|].
  destruct (loose_neq e (Annotator.email a)) eqn:Hne.
  - unfold bind at 1, query in H.
    rewrite findAssignmentsByTaskAndUser_slot in H.
    unfold bind at 1 in H.
    destruct ((if truthy_string e && truthy_nat len
               then u <- assignUserToTask env e task_id;; ret (Some u)
               else ret None) s) as [s1 [x|nu]]; [discriminate|].
    unfold bind in H.
    destruct (rebind env _ nu (snd st) s1) as [s2 [x|st2]];
      [discriminate|].
    unfold ret in H. now inversion H.
  - unfold ret in H. inversion H; subst.
    unfold loose_neq in Hne. apply negb_false_iff in Hne.
    apply bool_decide_eq_true in Hne.
    rewrite with_email_same by exact Hne.
    symmetry. now apply list_insert_id.
Qed.

Lemma reassign_from_annotators task_id len emails i st s s' st' :
  reassign_from env task_id len i emails st s = (s', inr st') ->
  length (fst st') = length (fst st)
  /\ (forall (j : nat) e,
        emails !! j = Some e ->
        exists a0, fst st !! (i + j)%nat = Some a0
          /\ fst st' !! (i + j)%nat
             = Some (Annotator.with_email (Some e) a0))
  /\ (forall k : nat,
        (k < i \/ i + length emails <= k)%nat ->
        fst st' !! k = fst st !! k).
Proof.
  revert i st s. induction emails as [|e rest IH]; intros i st s.
  - simpl. unfold ret. intros [= <- <-].
    split; [reflexivity|]. split; [intros j e H; discriminate|auto].
  - cbn [reassign_from]. unfold bind.
    destruct (reassign_slot env task_id len i e st s) as [s1 [x|st1]] eqn:Hs;
      [discriminate|].
    intros H. apply IH in H as (Hlen & Hin & Hout).
    apply reassign_slot_annotators in Hs as (a0 & Ha0 & Hst1).
    assert (Hi : (i < length (fst st))%nat)
      by (eapply lookup_lt_Some; exact Ha0).
    split; [|split].
    + rewrite Hlen, Hst1. apply length_insert.
    + intros [|j] e' Hj.
      * simpl in Hj. injection Hj as <-. rewrite Nat.add_0_r.
        exists a0. split; [exact Ha0|].
        rewrite Hout by lia. rewrite Hst1.
        now apply list_lookup_insert_eq.
      * simpl in Hj. destruct (Hin j e' Hj) as (a1 & Ha1 & Hres).
        rewrite Hst1, list_lookup_insert_ne in Ha1 by lia.
        exists a1. replace (i + S j)%nat with (S i + j)%nat by lia.
        auto.
    + intros k Hk. cbn [length] in Hk. rewrite Hout by lia.
      rewrite Hst1. apply list_lookup_insert_ne. lia.
Qed.
End ReturnedAnnotators.

Lemma updateAssignees_returns_requested_emails_aux
    env task_id new_emails s s' res :
  updateAssignees env task_id new_emails s = (s', inr res) ->
  (length new_emails <= length (get_all_annotators_from_task task_id s))%nat.
Proof.
  unfold updateAssignees, bind at 1, query, getAllAnnotatorsFromTask.
  unfold bind.
  destruct (reassign_from env task_id (length new_emails) 0 new_emails _ s)
    as [s1 [x|st1]] eqn:Hloop; [discriminate|].
  intros _.
  apply reassign_from_annotators in Hloop as (_ & Hin & _).
  cbn [fst] in *.
  set (fetched := get_all_annotators_from_task task_id s) in *.
  destruct (Nat.le_gt_cases (length new_emails) (length fetched))
    as [Hle|Hgt]; [exact Hle|].
  destruct (lookup_lt_is_Some_2 new_emails (length fetched) Hgt) as [e He].
  destruct (Hin _ e He) as (a0 & Ha0 & _). simpl in Ha0.
  apply lookup_lt_Some in Ha0. lia.
Qed.

(** X14: when [updateAssignees] succeeds, the annotators it returns are the
    rows it fetched, in the same order and number, in which the email at
    every index of [new_emails] is the requested one and nothing else has
    changed, an empty requested email included. *)
Theorem updateAssignees_returns_requested_emails
    env task_id new_emails s s' res :
  updateAssignees env task_id new_emails s = (s', inr res) ->
  let fetched := get_all_annotators_from_task task_id s in
  length (annotators res) = length fetched
  /\ (length new_emails <= length fetched)%nat
  /\ (forall (i : nat) e,
        new_emails !! i = Some e ->
        exists a0, fetched !! i = Some a0
          /\ annotators res !! i = Some (Annotator.with_email (Some e) a0))
  /\ (forall k : nat,
        (length new_emails <= k)%nat -> annotators res !! k = fetched !! k).
Proof.
  intros Hfull fetched. pose proof Hfull as H.
  unfold updateAssignees, bind at 1, query, getAllAnnotatorsFromTask in H.
  unfold bind in H. fold fetched in H.
  destruct (reassign_from env task_id (length new_emails) 0 new_emails
              (fetched, mkStats 0 0) s)
    as [s1 [x|st1]] eqn:Hloop; [discriminate|].
  apply reassign_from_annotators in Hloop as (Hlen & Hin & Hout).
  cbn [fst] in *.
  assert (Hres : annotators res = fst st1).
  { unfold classify in H.
    repeat match type of H with
           | context [if ?b then _ else _] => destruct b
           end; inversion H; reflexivity. }
  rewrite Hres. split; [exact Hlen|]. split; [|split].
  - eapply updateAssignees_returns_requested_emails_aux. exact Hfull.
  - intros i e Hi. exact (Hin i e Hi).
  - intros k Hk. apply Hout. right. simpl. exact Hk.
Qed.

(** X15: a call with more emails than the task has annotator rows never
    succeeds; for a task without annotator rows every non-empty list of
    emails ends in the TypeError of reading [annotators[0].email], the store
    untouched. *)
Theorem updateAssignees_too_many_emails env task_id new_emails s :
  ((length (get_all_annotators_from_task task_id s) < length new_emails)%nat ->
   exists e, snd (updateAssignees env task_id new_emails s) = inl e)
  /\ (get_all_annotators_from_task task_id s = [] -> new_emails <> [] ->
      updateAssignees env task_id new_emails s
      = (s, inl (JsError
                   "Cannot read properties of undefined (reading 'email')"))).
Proof.
  split.
  - intros Hlt.
    destruct (updateAssignees env task_id new_emails s) as [s' [e|res]] eqn:H;
      [eauto|].
    apply updateAssignees_returns_requested_emails_aux in H. lia.
  - intros Hnil Hne. destruct new_emails as [|e rest]; [contradiction|].
    unfold updateAssignees, bind at 1, query, getAllAnnotatorsFromTask.
    rewrite Hnil. reflexivity.
Qed.

(** * Resolving a user *)

(** X16: [assignUserToTask] either notifies or invites, never both.  When
    exactly one user has the email, nobody is invited, no user is added and
    a success returns that user's identifier; the account is tagged before
    the mail is attempted, so the tag is logged even when the call then
    fails.  Otherwise (no user, or several, with the email) nobody is tagged
    or mailed, a failed invitation changes nothing, and a successful one
    adds exactly the invited user. *)
Theorem assignUserToTask_notifies_or_invites env email task_id s s1 r :
  assignUserToTask env email task_id s = (s1, r) ->
  (forall u, users_with_email email s = [u] ->
     users s1 = users s
     /\ (exists events,
           log s1 = log s ++ EUpdateUserMetadata (User.id u) task_id :: events
           /\ forallb (fun e => negb (is_invite e)) events = true)
     /\ (forall x, r = inr x -> x = User.id u))
  /\ ((forall u, users_with_email email s <> [u]) ->
      (exists events,
         log s1 = log s ++ events
         /\ forallb (fun e => negb (is_notice e)) events = true)
      /\ (forall x, r = inr x ->
            users s1 = users s ++ [User.mk x email None]
            /\ inviteUserByEmail env email task_id = inr x)
      /\ (forall m, inviteUserByEmail env email task_id = inl m -> s1 = s)).
Proof.
  unfold assignUserToTask, users_with_email. intros H. split.
  - intros u Hu. rewrite Hu in H. cbn [maybeSingle data] in H.
    repeat match type of H with
           | context [match ?x with _ => _ end] => destruct x eqn:?
           end;
      inversion H; subst; clear H; cbn [users log emit];
      (split; [reflexivity|]);
      (split;
       [ first [ exists []; split; reflexivity
               | eexists; split;
                 [rewrite <- app_assoc; reflexivity|reflexivity] ]
       | intros x Hx; inversion Hx; reflexivity ]).
  - intros Hnot.
    assert (Hdata : data (maybeSingle
                            (List.filter
                               (fun u => bool_decide (User.email u = email))
                               (users s))) = None).
    { destruct (List.filter _ (users s)) as [|u [|u' l]] eqn:Hf;
        try reflexivity. destruct (Hnot u). reflexivity. }
    rewrite Hdata in H.
    destruct (inviteUserByEmail env email task_id) as [m|x] eqn:Hinv.
    + inversion H; subst. split; [|split].
      * exists []. split; [now rewrite app_nil_r|reflexivity].
      * intros x Hx. discriminate.
      * reflexivity.
    + destruct (truthy_string x); inversion H; subst; clear H;
        cbn [users log emit set_users];
        (split; [eexists; split; reflexivity|]);
        (split; [|intros m Hm; discriminate]);
        intros y Hy; inversion Hy; subst; auto.
Qed.

(** X17: an invitation is not repeated: after a call that invited the
    email and succeeded, a second call for the same email, with the mail
    provider configured and answering, finds the invited user, invites
    nobody, adds no user and returns the same identifier. *)
Theorem assignUserToTask_invites_once env email task_id task_id' s s1 u tok :
  users_with_email email s = [] ->
  assignUserToTask env email task_id s = (s1, inr u) ->
  mailtrapToken env = Some tok -> tok <> ""%string ->
  mail_success env email = true ->
  assignUserToTask env email task_id' s1
  = (emit (ESendMail email) (emit (EUpdateUserMetadata u task_id') s1),
     inr u)
  /\ users_with_email email s1 = [User.mk u email None].
Proof.
  intros Hnone Hfirst Htok Hne Hmail.
  assert (Hs1 : users s1 = users s ++ [User.mk u email None]
                /\ u <> ""%string).
  { unfold assignUserToTask in Hfirst. unfold users_with_email in Hnone.
    rewrite Hnone in Hfirst. cbn [maybeSingle data] in Hfirst.
    destruct (inviteUserByEmail env email task_id) as [m|x]; [discriminate|].
    destruct (truthy_string x) eqn:Hx; [|discriminate].
    inversion Hfirst; subst. split; [reflexivity|].
    unfold truthy_string in Hx. apply negb_true_iff in Hx.
    now apply bool_decide_eq_false in Hx. }
  destruct Hs1 as [Hs1 Hu].
  assert (Hfound : users_with_email email s1 = [User.mk u email None]).
  { unfold users_with_email in *. rewrite Hs1, List.filter_app, Hnone.
    simpl. now rewrite bool_decide_eq_true_2. }
  split; [|exact Hfound].
  unfold assignUserToTask. unfold users_with_email in Hfound.
  rewrite Hfound. cbn [maybeSingle data User.id User.email].
  rewrite Htok, (truthy_string_true tok Hne), Hmail,
    (truthy_string_true u Hu).
  reflexivity.
Qed.

(** * Replication and merge: what is never touched *)

Lemma appends_only_refl s : appends_only s s.
Proof.
  unfold appends_only.
  repeat apply conj; first [reflexivity|exists []; now rewrite app_nil_r].
Qed.

Lemma appends_only_trans s1 s2 s3 :
  appends_only s1 s2 -> appends_only s2 s3 -> appends_only s1 s3.
Proof.
  intros ([a1 A1] & [a2 A2] & [a3 A3] & [a4 A4] & A5 & A6 & [a7 A7])
         ([b1 B1] & [b2 B2] & [b3 B3] & [b4 B4] & B5 & B6 & [b7 B7]).
  unfold appends_only. repeat apply conj; try congruence.
  - exists (a1 ++ b1). now rewrite B1, A1, app_assoc.
  - exists (a2 ++ b2). now rewrite B2, A2, app_assoc.
  - exists (a3 ++ b3). now rewrite B3, A3, app_assoc.
  - exists (a4 ++ b4). now rewrite B4, A4, app_assoc.
  - exists (a7 ++ b7). now rewrite B7, A7, app_assoc.
Qed.

Lemma appending_bind {A B} (m : M A) (k : A -> M B) :
  appending m -> (forall x, appending (k x)) -> appending (bind m k).
Proof.
  intros Hm Hk s. unfold bind. specialize (Hm s).
  destruct (m s) as [s1 [e|x]]; cbn [fst] in *; [exact Hm|].
  eapply appends_only_trans; [exact Hm|apply Hk].
Qed.

Lemma appending_try_catch {A} (m : M A) (h : Exn -> M A) :
  appending m -> (forall e, appending (h e)) -> appending (try_catch m h).
Proof.
  intros Hm Hh s. unfold try_catch. specialize (Hm s).
  destruct (m s) as [s1 [e|x]]; cbn [fst] in *; [|exact Hm].
  eapply appends_only_trans; [exact Hm|apply Hh].
Qed.

Lemma appending_query {A} (q : Store -> Res A) : appending (query q).
Proof. intros s. apply appends_only_refl. Qed.

Lemma appending_ret {A} (x : A) : appending (ret x).
Proof. intros s. apply appends_only_refl. Qed.

Lemma appending_throw {A} (e : Exn) : appending (@throw A e).
Proof. intros s. apply appends_only_refl. Qed.

Ltac appended :=
  unfold appends_only; simpl; repeat apply conj;
  first [ reflexivity
        | exists []; now rewrite app_nil_r
        | eexists; reflexivity ].

Lemma appending_task_create input : appending (task_create input).
Proof.
  intros s. unfold task_create. destruct input;
    [appended|apply appends_only_refl].
Qed.

Lemma appending_assignment_createMany cenv input :
  appending (assignment_createMany cenv input).
Proof.
  intros s. unfold assignment_createMany.
  destruct (createMany_schema input); [|apply appends_only_refl].
  destruct (insert_error cenv s l); [apply appends_only_refl|appended].
Qed.

Lemma appending_annotation_createMany fields :
  appending (annotation_createMany fields).
Proof.
  intros s. unfold annotation_createMany. destruct (all_some _);
    [appended|apply appends_only_refl].
Qed.

Lemma appending_relation_createMany fields :
  appending (relation_createMany fields).
Proof.
  intros s. unfold relation_createMany.
  destruct (all_some _); [destruct (all_some _)|];
    first [appended|apply appends_only_refl].
Qed.

Lemma appending_replicateTask cenv t : appending (replicateTask cenv t).
Proof.
  unfold replicateTask.
  repeat first
    [ apply appending_bind; [|intros ?]
    | apply appending_query
    | apply appending_ret
    | apply appending_task_create
    | apply appending_assignment_createMany
    | apply appending_annotation_createMany
    | apply appending_relation_createMany ].
Qed.

(** X18: whatever their outcome, [replicateTask] and [mergeTasks] only
    append: every row that was in the store is still there, unchanged and in
    its place, documents and users are untouched, and nothing is deleted,
    also when the call fails half way. *)
Theorem replicate_and_merge_append_only cenv s :
  (forall task_id, appends_only s (fst (replicateTask cenv task_id s)))
  /\ (forall originalTaskId similarTaskId,
        appends_only s (fst (mergeTasks cenv originalTaskId similarTaskId s))).
Proof.
  split.
  - intros t. apply appending_replicateTask.
  - intros o m. revert s. change (appending (mergeTasks cenv o m)).
    unfold mergeTasks. apply appending_try_catch.
    + repeat first
        [ apply appending_replicateTask
        | apply appending_assignment_createMany
        | apply appending_query
        | apply appending_ret
        | apply appending_bind; [|intros ?]
        | progress cbv zeta ].
    + intros e. apply appending_throw.
Qed.

(** X19: every failure of [mergeTasks] is an INTERNAL_SERVER_ERROR whose
    message starts with "Error in mergeTasks: " and carries the printed
    cause; for an original task that does not exist the cause is the
    [findById] error and the store is untouched, and the same holds for
    [replicateTask], which fails with the [findById] error itself. *)
Theorem mergeTasks_errors_are_wrapped cenv originalTaskId similarTaskId s :
  (forall s' e,
      mergeTasks cenv originalTaskId similarTaskId s = (s', inl e) ->
      exists cause,
        e = TRPCError INTERNAL_SERVER_ERROR
              ("Error in mergeTasks: " ++ exn_to_string cause)%string)
  /\ (~ In originalTaskId (map Task.id (tasks s)) ->
      replicateTask cenv originalTaskId s
      = (s, inl (TRPCError INTERNAL_SERVER_ERROR
                   ("Error in tasks.findById: " ++ no_single_row)%string))
      /\ mergeTasks cenv originalTaskId similarTaskId s
         = (s, inl (TRPCError INTERNAL_SERVER_ERROR
                      ("Error in mergeTasks: TRPCError: "
                       ++ "Error in tasks.findById: "
                       ++ no_single_row)%string))).
Proof.
  split.
  - intros s' e. unfold mergeTasks, try_catch.
    destruct (bind _ _ s) as [s1 [x|y]]; [|discriminate].
    unfold throw. intros [= <- <-]. eauto.
  - intros Hni.
    assert (Hfind : task_findById originalTaskId s
                    = inl (TRPCError INTERNAL_SERVER_ERROR
                             ("Error in tasks.findById: "
                              ++ no_single_row)%string)).
    { unfold task_findById. rewrite filter_none; [reflexivity|].
      intros t Ht. apply bool_decide_eq_false_2. intros <-.
      apply Hni. now apply in_map. }
    assert (Hrep : replicateTask cenv originalTaskId s
                   = (s, inl (TRPCError INTERNAL_SERVER_ERROR
                                ("Error in tasks.findById: "
                                 ++ no_single_row)%string))).
    { unfold replicateTask, bind at 1, query. now rewrite Hfind. }
    split; [exact Hrep|].
    unfold mergeTasks, try_catch, bind at 1. rewrite Hrep. reflexivity.
Qed.

Lemma named_js_key k ra :
  named k ra = bool_decide (js_key (RichAssignment.documents ra) = k).
Proof.
  unfold named, js_key. destruct (RichAssignment.documents ra) as [d|];
    [reflexivity|].
  apply bool_decide_ext. split; congruence.
Qed.

Lemma name2Id_fold_lookup (l : list RichAssignment.t) (k : string)
    (acc : gmap string Z) :
  fold_left
    (fun (name2Id : gmap string Z) a =>
       let k := js_key (RichAssignment.documents a) in
       if js_in k name2Id then name2Id
       else
         <[k := Assignment.document_id (RichAssignment.assignment a)]>
           name2Id)
    l acc !! k
  = match acc !! k with
    | Some d => Some d
    | None =>
        if bool_decide (k ∈ Object_prototype_keys) then None
        else
          (fun ra => Assignment.document_id (RichAssignment.assignment ra))
            <$> List.find (named k) l
    end.
Proof.
  destruct (bool_decide (k ∈ Object_prototype_keys)) eqn:Hp.
  - revert acc. induction l as [|x l IH]; intros acc; simpl;
      [now destruct (acc !! k)|].
    rewrite IH. cbn zeta.
    destruct (js_in (js_key (RichAssignment.documents x)) acc) eqn:Hin;
      [reflexivity|].
    apply orb_false_iff in Hin as [_ Hx].
    destruct (decide (js_key (RichAssignment.documents x) = k)) as [Hk|Hk].
    + rewrite Hk in Hx. congruence.
    + rewrite lookup_insert. now rewrite decide_False.
  - revert acc. induction l as [|x l IH]; intros acc; simpl;
      [now destruct (acc !! k)|].
    rewrite IH. cbn zeta. rewrite named_js_key.
    destruct (decide (js_key (RichAssignment.documents x) = k)) as [Hk|Hk].
    + rewrite (bool_decide_eq_true_2 _ Hk). rewrite Hk.
      unfold js_in. rewrite Hp, orb_false_r.
      destruct (acc !! k) as [d|] eqn:Hx.
      * rewrite bool_decide_eq_true_2 by eauto. now rewrite Hx.
      * rewrite bool_decide_eq_false_2 by (intros [? ?]; discriminate).
        rewrite lookup_insert. now rewrite decide_True.
    + rewrite (bool_decide_eq_false_2 _ Hk).
      destruct (js_in (js_key (RichAssignment.documents x)) acc);
        [reflexivity|].
      rewrite lookup_insert. now rewrite decide_False.
Qed.

(** X20: reading [name2Id] at a document name gives the document of the
    first original assignment whose document has that name: when two
    documents of the original task share a name, the first one wins, and a
    name of no original document reads [undefined].  A name that every
    object inherits from [Object.prototype] ([constructor], [toString],
    ...) is never stored, since it is [in] the empty object already, and
    reads the inherited member instead of a document. *)
Theorem name2Id_of_first_wins (l : list RichAssignment.t) (k : string) :
  js_get (name2Id_of l) k
  = if bool_decide (k ∈ Object_prototype_keys) then Inherited
    else
      match List.find (named k) l with
      | Some ra => Own (Assignment.document_id (RichAssignment.assignment ra))
      | None => Undefined
      end.
Proof.
  unfold js_get, name2Id_of.
  rewrite name2Id_fold_lookup, lookup_empty.
  case_bool_decide; [reflexivity|].
  now destruct (List.find (named k) l).
Qed.

(** X21: a task that is created can be found: in a store whose task
    identifiers are below the counter, [tasks.create] stores the given
    fields under the counter's value, [tasks.findById] on that value returns
    the created row, every task that existed is found as before, and a
    [null] input is refused without a change. *)
Theorem task_create_then_findById s :
  (forall t, In t (tasks s) -> (Task.id t < next_task_id s)%Z) ->
  (forall f,
      exists s' row,
        task_create (Some f) s = (s', inr row)
        /\ task_copy (next_task_id s) f row
        /\ task_findById (Task.id row) s' = inr (Some row)
        /\ (forall id, id <> next_task_id s ->
              task_findById id s' = task_findById id s))
  /\ (exists e, task_create None s = (s, inl e)).
Proof.
  intros Hlt. split; [|unfold task_create; eauto].
  intros f. unfold task_create. eexists _, _. split; [reflexivity|].
  split; [reflexivity|].
  assert (Hold : forall id,
             List.filter (fun t => bool_decide (Task.id t = id)) (tasks s)
             = [] \/ id <> next_task_id s).
  { intros id. destruct (decide (id = next_task_id s)) as [->|Hne];
      [left|now right].
    apply filter_none. intros t Ht. apply bool_decide_eq_false_2.
    apply Hlt in Ht. lia. }
  split.
  - unfold task_findById. cbn [tasks emit set_tasks Task.id].
    rewrite List.filter_app. destruct (Hold (next_task_id s)) as [->|Hne];
      [|contradiction].
    simpl.
    rewrite (bool_decide_eq_true_2 (next_task_id s = next_task_id s) eq_refl).
    reflexivity.
  - intros id Hne. unfold task_findById. cbn [tasks emit set_tasks].
    rewrite List.filter_app. simpl.
    rewrite (bool_decide_eq_false_2 (next_task_id s = id))
      by congruence.
    now rewrite app_nil_r.
Qed.

(** * The annotators' view *)

Lemma Math_min_nil_iff l : Math_min l = Infinity <-> l = [].
Proof.
  destruct l as [|x l]; simpl; [tauto|].
  split; [|discriminate]. now destruct (Math_min l).
Qed.

Lemma Math_min_spec l m :
  Math_min l = Num m -> In m l /\ forall x, In x l -> (m <= x)%Z.
Proof.
  revert m. induction l as [|y l IH]; intros m; simpl; [discriminate|].
  destruct (Math_min l) as [k|] eqn:Hk.
  - intros [= <-]. destruct (IH k eq_refl) as [Hin Hle]. split.
    + destruct (Z.min_spec y k) as [[_ ->]|[_ ->]]; [now left|now right].
    + intros x [<-|Hx]; [lia|]. apply Hle in Hx. lia.
  - intros [= <-]. apply Math_min_nil_iff in Hk as ->.
    split; [now left|]. intros x [<-|[]]. lia.
Qed.

Lemma filter_split_length {A} (p q : A -> bool) (l : list A) :
  (forall x, In x l -> q x = negb (p x)) ->
  (length (List.filter p l) + length (List.filter q l) = length l)%nat.
Proof.
  induction l as [|x l IH]; intros H; [reflexivity|]. simpl.
  rewrite (H x (or_introl eq_refl)).
  specialize (IH (fun y Hy => H y (or_intror Hy))).
  destruct (p x); simpl; lia.
Qed.

Lemma filter_map_comm {A B} (f : A -> B) (p : B -> bool) (l : list A) :
  List.filter p (map f l) = map f (List.filter (fun x => p (f x)) l).
Proof.
  induction l as [|x l IH]; [reflexivity|]. simpl.
  destruct (p (f x)); simpl; now rewrite IH.
Qed.

Lemma dbAssignments_of_In t n s r :
  In r (dbAssignments_of t n s) ->
  In (DbAssignment.assignment r) (assignments s)
  /\ Assignment.task_id (DbAssignment.assignment r) = t
  /\ Assignment.annotator_number (DbAssignment.assignment r) = n.
Proof.
  unfold dbAssignments_of. intros H.
  apply in_flat_map in H as (a & Ha & H).
  apply in_flat_map in H as (d & _ & H).
  apply in_map_iff in H as (e & <- & _). simpl.
  apply filter_In in Ha as [Ha Hp].
  apply andb_true_iff in Hp as [Hn Ht].
  apply bool_decide_eq_true in Hn. apply bool_decide_eq_true in Ht.
  auto.
Qed.

Lemma annotator_group_counts t d s :
  let grp := annotator_group t d s in
  let pending :=
    List.filter (fun c => bool_decide (DocumentChild.status c = PENDING))
      (AnnotatorGroup.children grp) in
  AnnotatorGroup.amount_total grp = length (AnnotatorGroup.children grp)
  /\ (AnnotatorGroup.amount_done grp + length pending
      = AnnotatorGroup.amount_total grp)%nat
  /\ (AnnotatorGroup.next_seq_pos grp = Infinity <-> pending = [])
  /\ (forall m, AnnotatorGroup.next_seq_pos grp = Num m ->
        (exists c, In c pending /\ DocumentChild.seq_pos c = m)
        /\ forall c, In c pending -> (m <= DocumentChild.seq_pos c)%Z)
  /\ forall c, In c (AnnotatorGroup.children grp) ->
       exists a, In a (assignments s)
                 /\ Assignment.id a = DocumentChild.assignment_id c
                 /\ Assignment.task_id a = t
                 /\ Assignment.annotator_number a
                    = DbAnnotator.annotator_number d.
Proof.
  intros grp pending. subst pending grp. unfold annotator_group.
  cbn [AnnotatorGroup.amount_total AnnotatorGroup.amount_done
       AnnotatorGroup.children AnnotatorGroup.next_seq_pos].
  set (rows := dbAssignments_of t (DbAnnotator.annotator_number d) s).
  rewrite filter_map_comm. cbn [DocumentChild.status].
  set (pend := List.filter
                 (fun r => bool_decide
                    (Assignment.status (DbAssignment.assignment r) = PENDING))
                 rows).
  split; [now rewrite length_map|].
  split; [|split; [split|split; [intros m H; split|]]].
  - rewrite length_map. apply filter_split_length.
    intros r _. now destruct (Assignment.status (DbAssignment.assignment r)).
  - clearbody pend. rewrite Math_min_nil_iff. now destruct pend.
  - clearbody pend. rewrite Math_min_nil_iff. now destruct pend.
  - apply Math_min_spec in H as [Hin _].
    apply in_map_iff in Hin as (r & Hr & Hin).
    eexists. split; [apply in_map; exact Hin|exact Hr].
  - intros c Hc. apply Math_min_spec in H as [_ Hle].
    apply in_map_iff in Hc as (r & <- & Hr). simpl.
    apply Hle. now apply in_map_iff; exists r.
  - intros c Hc. apply in_map_iff in Hc as (r & <- & Hr). simpl.
    apply dbAssignments_of_In in Hr as (Ha & Ht & Hn). eauto.
Qed.

Lemma firstn_In' {A} (n : nat) (l : list A) x : In x (firstn n l) -> In x l.
Proof.
  intros H. rewrite <- (firstn_skipn n l). apply in_or_app. now left.
Qed.

Lemma skipn_In' {A} (n : nat) (l : list A) x : In x (skipn n l) -> In x l.
Proof.
  intros H. rewrite <- (firstn_skipn n l). apply in_or_app. now right.
Qed.

Lemma queryAnnotators_In ilike t offset f s d :
  In d (queryAnnotators ilike t offset f s) ->
  exists a, In a (assignments s) /\ Assignment.task_id a = t
            /\ Assignment.annotator_number a = DbAnnotator.annotator_number d.
Proof.
  unfold queryAnnotators. intros H.
  apply firstn_In', skipn_In', order_In, group_by_In in H as [H _].
  assert (Hj : In d (flat_map
              (fun a =>
                 map (fun e =>
                        DbAnnotator.mk (Assignment.annotator_number a) e
                          (annotator_name_of e (Assignment.annotator_number a)))
                   (joined_emails s a))
              (List.filter (of_task t) (assignments s)))).
  { destruct (truthy_string f); [|exact H].
    now apply filter_In in H as [H _]. }
  apply in_flat_map in Hj as (a & Ha & Hd).
  apply in_map_iff in Hd as (e & <- & _). simpl.
  apply filter_In in Ha as [Ha Ht]. apply bool_decide_eq_true in Ht. eauto.
Qed.

(** X23: the annotators' view is paged by ten.  A page below 1 fails, the
    store refusing the negative offset; any other page answers with at most
    ten groups, and its total is the number of distinct annotator slots of
    the task, whatever the page and the name filter. *)
Theorem getGroupByAnnotators_pages ilike t page f s :
  ((page < 1)%Z ->
   exists e, getGroupByAnnotators ilike t page f s = inl e)
  /\ ((1 <= page)%Z ->
      exists g, getGroupByAnnotators ilike t page f s = inr g
        /\ (length (group_data g) <= 10)%nat
        /\ exists slots,
             NoDup slots
             /\ (forall n, In n slots <->
                   exists a, In a (assignments s)
                             /\ Assignment.task_id a = t
                             /\ Assignment.annotator_number a = n)
             /\ group_total g = Z.of_nat (length slots)).
Proof.
  unfold getGroupByAnnotators. split; intros Hp.
  - destruct ((page - 1) * 10 <? 0)%Z eqn:Ho; [eauto|].
    apply Z.ltb_ge in Ho. lia.
  - destruct ((page - 1) * 10 <? 0)%Z eqn:Ho;
      [apply Z.ltb_lt in Ho; lia|].
    eexists. split; [reflexivity|]. cbn [group_data group_total]. split.
    + rewrite length_map. apply firstn_le_length.
    + set (numbers := map Assignment.annotator_number
                        (List.filter (of_task t) (assignments s))).
      exists (group_by (fun n : Z => n) [] numbers).
      split; [|split; [|reflexivity]].
      * rewrite <- (map_id (group_by _ _ _)). apply group_by_NoDup.
      * intros n. split.
        -- intros H. apply group_by_In in H as [H _].
           apply in_map_iff in H as (a & <- & Ha).
           apply filter_In in Ha as [Ha Ht].
           apply bool_decide_eq_true in Ht. eauto.
        -- intros (a & Ha & Ht & <-).
           rewrite <- (map_id (group_by _ _ _)).
           apply (group_by_complete (fun n : Z => n)); [|intros []].
           apply in_map, filter_In. split; [exact Ha|].
           now apply bool_decide_eq_true.
Qed.

(** X24: every group of the annotators' view stands for a slot of the task
    and lists assignments of that slot only; its total is the number of its
    children, its done and pending children add up to the total, and its
    next position is [Infinity] exactly when no child is pending, else the
    least position of a pending child. *)
Theorem getGroupByAnnotators_groups ilike t page f s g grp :
  getGroupByAnnotators ilike t page f s = inr g ->
  In grp (group_data g) ->
  let pending :=
    List.filter (fun c => bool_decide (DocumentChild.status c = PENDING))
      (AnnotatorGroup.children grp) in
  AnnotatorGroup.amount_total grp = length (AnnotatorGroup.children grp)
  /\ (AnnotatorGroup.amount_done grp + length pending
      = AnnotatorGroup.amount_total grp)%nat
  /\ (AnnotatorGroup.next_seq_pos grp = Infinity <-> pending = [])
  /\ (forall m, AnnotatorGroup.next_seq_pos grp = Num m ->
        (exists c, In c pending /\ DocumentChild.seq_pos c = m)
        /\ forall c, In c pending -> (m <= DocumentChild.seq_pos c)%Z)
  /\ exists n,
       AnnotatorGroup.key grp = ("ann-" ++ pretty n)%string
       /\ (exists a, In a (assignments s) /\ Assignment.task_id a = t
                     /\ Assignment.annotator_number a = n)
       /\ forall c, In c (AnnotatorGroup.children grp) ->
            exists a, In a (assignments s)
                      /\ Assignment.id a = DocumentChild.assignment_id c
                      /\ Assignment.task_id a = t
                      /\ Assignment.annotator_number a = n.
Proof.
  unfold getGroupByAnnotators.
  destruct ((page - 1) * 10 <? 0)%Z; [discriminate|].
  intros Hg Hin. injection Hg as <-. cbn [group_data] in Hin.
  apply in_map_iff in Hin as (d & <- & Hd).
  destruct (annotator_group_counts t d s) as (H1 & H2 & H3 & H4 & H5).
  cbv zeta. repeat (split; [assumption|]).
  exists (DbAnnotator.annotator_number d).
  split; [reflexivity|]. split; [|exact H5].
  apply queryAnnotators_In in Hd as (a & Ha & Ht & Hn). eauto.
Qed.

Lemma sanitize_wildcards f :
  Forall (fun c => c = "%"%char \/ c = "_"%char)
    (String.list_ascii_of_string f) ->
  sanitize f = "".
Proof.
  unfold sanitize. intros H.
  replace (List.filter _ _) with (@nil ascii); [reflexivity|].
  symmetry. apply filter_none.
  intros c Hc. rewrite List.Forall_forall in H.
  destruct (H c Hc) as [-> | ->]; reflexivity.
Qed.

(** X25: a name filter made of the wildcards [%] and [_] only is no filter:
    the view is the one of the empty filter, and the pattern match is never
    consulted. *)
Theorem getGroupByAnnotators_wildcard_filter ilike ilike' t page f s :
  Forall (fun c => c = "%"%char \/ c = "_"%char)
    (String.list_ascii_of_string f) ->
  getGroupByAnnotators ilike t page f s
  = getGroupByAnnotators ilike' t page "" s.
Proof.
  intros H. unfold getGroupByAnnotators.
  rewrite (sanitize_wildcards f H).
  change (sanitize "") with "". reflexivity.
Qed.

(** * Counting the assignments of a project *)

Lemma project_join_length (p : Z) (ts : list Task.t) (a : Assignment.t) :
  NoDup (map Task.id ts) ->
  length (List.filter
            (fun t => bool_decide (Task.id t = Assignment.task_id a)
                      && bool_decide (Task.project_id t = p))
            ts)
  = if in_project p ts a then 1%nat else 0%nat.
Proof.
  unfold in_project. induction ts as [|t ts IH]; [reflexivity|].
  simpl. rewrite NoDup_cons. intros [Hni Hnd].
  case_bool_decide as Hid; simpl; [|now apply IH].
  assert (Hnone : forall q, List.filter
            (fun t' => bool_decide (Task.id t' = Assignment.task_id a) && q t')
            ts = []).
  { intros q. apply filter_none. intros t' Ht'.
    rewrite bool_decide_eq_false_2; [reflexivity|].
    intros Heq. apply Hni. rewrite Hid, <- Heq.
    apply list_elem_of_In. now apply in_map. }
  case_bool_decide as Hp; simpl.
  - now rewrite (Hnone (fun t' => bool_decide (Task.project_id t' = p))).
  - exact (IH Hnd).
Qed.

Lemma project_rows_length (p : Z) (ts : list Task.t) (l : list Assignment.t) :
  NoDup (map Task.id ts) ->
  length
    (flat_map
       (fun a =>
          map (fun t => (a, t))
            (List.filter
               (fun t => bool_decide (Task.id t = Assignment.task_id a)
                         && bool_decide (Task.project_id t = p))
               ts))
       l)
  = length (List.filter (in_project p ts) l).
Proof.
  intros Hnd. induction l as [|a l IH]; [reflexivity|].
  cbn [flat_map List.filter]. rewrite length_app, length_map, IH.
  rewrite (project_join_length p ts a Hnd).
  now destruct (in_project p ts a).
Qed.

(** X26: when no two tasks share an identifier, the count of a project
    counts every assignment at most once: it is the number of assignments
    whose task belongs to the project. *)
Theorem getCountByProject_counts_assignments p s :
  NoDup (map Task.id (tasks s)) ->
  getCountByProject p s
  = inr (Some (Z.of_nat
                 (length (List.filter (in_project p (tasks s))
                            (assignments s))))).
Proof.
  intros Hnd. unfold getCountByProject.
  now rewrite (project_rows_length p (tasks s) (assignments s) Hnd).
Qed.

(** * The properties on concrete data *)

Lemma convert_round_trip_witness :
  convert_db2ls (stored_relation 7 (convert_ls2db rel_ex 1 2)) = rel_ex.
Proof. exact (proj1 convert_round_trip rel_ex 1%Z 2%Z 7%Z eq_refl). Defined.

Lemma collect_ls_anns_keeps_labels_witness :
  collect_ls_anns false 3 items_ex [] = List.filter is_label items_ex.
Proof.
  apply (proj2 (proj2 (collect_ls_anns_keeps_labels false 3%Z items_ex))).
  intros x [<-|[<-|[<-|[]]]]; discriminate.
Defined.

Lemma relation_ends_resolution_witness :
  relation_ends (annotations store_ex) rel_ex = (1%Z, 2%Z).
Proof.
  refine (proj2 (proj2 (proj2 (proj2
    (relation_ends_resolution (annotations store_ex) rel_ex)))) _
    (Annotation.mk 1 1 "Party" (Some 0%Z) (Some 3%Z) "abc" "ls1" MANUAL 3)
    (Annotation.mk 2 1 "Date" (Some 4%Z) (Some 6%Z) "de" "ls2" MANUAL 3)
    _ _ _ _).
  - apply (bool_decide_unpack _). vm_compute. exact I.
  - simpl. tauto.
  - simpl. tauto.
  - reflexivity.
  - reflexivity.
Defined.

Lemma next_assignment_agrees_with_count_witness :
  exists nt,
    countAssignmentsByUserAndTask "u1" 1 store_seq = inr nt
    /\ next nt = 5%Z.
Proof.
  apply (proj1 (next_assignment_agrees_with_count "u1" store_seq)
           (Assignment.mk 4 (Some "u1") 1 13 PENDING 5 0 1 MANUAL)).
  vm_compute. reflexivity.
Defined.

Lemma next_position_is_fetchable_witness :
  exists nt a,
    countAssignmentsByUserAndTask "u1" 1 store_seq = inr nt
    /\ findAssignmentsByUserTaskSeq "u1" 1 (next nt) store_seq = inr (Some a)
    /\ In a (assignments_of "u1" 1 store_seq)
    /\ Assignment.status a = PENDING
    /\ Assignment.seq_pos a = next nt.
Proof.
  apply (proj1 (next_position_is_fetchable "u1" 1%Z store_seq)).
  - vm_compute. discriminate.
  - apply (bool_decide_unpack _). vm_compute. exact I.
Defined.

Lemma findById_never_not_found_witness :
  task_findById 99 store_ex
  = inl (TRPCError INTERNAL_SERVER_ERROR
           ("Error in tasks.findById: " ++ no_single_row)%string).
Proof.
  apply (proj1 (proj2 (proj2 (findById_never_not_found 99%Z store_ex)))).
  simpl. intros [H|[]]. discriminate H.
Defined.

Lemma get_all_annotators_from_task_rows_witness :
  In 2%Z (map Annotator.annotator_number
            (get_all_annotators_from_task 1 store_ex)).
Proof.
  refine (proj1 (proj2 (proj2 (proj2
    (get_all_annotators_from_task_rows 1%Z store_ex)))) _
    (Assignment.mk 2 (Some "u2") 1 10 PENDING 1 0 2 MANUAL) _ _).
  - simpl. now left.
  - simpl. tauto.
  - reflexivity.
Defined.

Lemma updateAssignees_returns_requested_emails_witness :
  exists s' res,
    updateAssignees env_ok 1 ["c@x.org"] store_ex = (s', inr res)
    /\ length (annotators res)
       = length (get_all_annotators_from_task 1 store_ex)
    /\ exists a0,
         get_all_annotators_from_task 1 store_ex !! 0%nat = Some a0
         /\ annotators res !! 0%nat
            = Some (Annotator.with_email (Some "c@x.org") a0).
Proof.
  destruct (updateAssignees env_ok 1 ["c@x.org"] store_ex)
    as [s' [e|res]] eqn:Hrun.
  { vm_compute in Hrun. discriminate Hrun. }
  destruct (updateAssignees_returns_requested_emails env_ok 1%Z ["c@x.org"]
              store_ex s' res Hrun) as (Hlen & _ & Hat & _).
  exists s', res. split; [reflexivity|]. split; [exact Hlen|].
  apply (Hat 0%nat "c@x.org"). reflexivity.
Defined.

Lemma updateAssignees_too_many_emails_witness :
  exists e,
    snd (updateAssignees env_ok 1 ["c@x.org"; "b@x.org"; "a@x.org"] store_ex)
    = inl e.
Proof.
  apply (proj1 (updateAssignees_too_many_emails env_ok 1%Z
                  ["c@x.org"; "b@x.org"; "a@x.org"] store_ex)).
  vm_compute. lia.
Defined.

Lemma assignUserToTask_notifies_or_invites_witness :
  users (fst (assignUserToTask env_ok "c@x.org" 1 store_ex)) = users store_ex.
Proof.
  refine (proj1 (proj1
    (assignUserToTask_notifies_or_invites env_ok "c@x.org" 1%Z store_ex
       (fst (assignUserToTask env_ok "c@x.org" 1 store_ex))
       (snd (assignUserToTask env_ok "c@x.org" 1 store_ex)) _)
    (User.mk "u3" "c@x.org" None) _)).
  - vm_compute. reflexivity.
  - reflexivity.
Defined.

Lemma assignUserToTask_invites_once_witness :
  users_with_email "d@x.org"
    (fst (assignUserToTask env_ok "d@x.org" 1 store_ex))
  = [User.mk "id-d@x.org" "d@x.org" None].
Proof.
  refine (proj2
    (assignUserToTask_invites_once env_ok "d@x.org" 1%Z 1%Z store_ex
       (fst (assignUserToTask env_ok "d@x.org" 1 store_ex)) "id-d@x.org"
       "token" _ _ _ _ _)).
  - reflexivity.
  - vm_compute. reflexivity.
  - reflexivity.
  - discriminate.
  - reflexivity.
Defined.

Lemma mergeTasks_errors_are_wrapped_witness :
  replicateTask cenv_ex 99 store_ex
  = (store_ex,
     inl (TRPCError INTERNAL_SERVER_ERROR
            ("Error in tasks.findById: " ++ no_single_row)%string)).
Proof.
  apply (proj2 (mergeTasks_errors_are_wrapped cenv_ex 99%Z 1%Z store_ex)).
  simpl. intros [H|[]]. discriminate H.
Defined.

Lemma task_create_then_findById_witness :
  exists s' row,
    task_create (Some task_ex) store_ex = (s', inr row)
    /\ task_copy 2 task_ex row
    /\ task_findById (Task.id row) s' = inr (Some row)
    /\ (forall id, id <> 2%Z ->
          task_findById id s' = task_findById id store_ex).
Proof.
  refine (proj1 (task_create_then_findById store_ex _) task_ex).
  simpl. intros t [<-|[]]. reflexivity.
Defined.

Lemma getGroupByAnnotators_pages_witness :
  (exists e, getGroupByAnnotators (fun _ _ => true) 1 0 "" store_ex = inl e)
  /\ exists g,
       getGroupByAnnotators (fun _ _ => true) 1 1 "" store_ex = inr g
       /\ (length (group_data g) <= 10)%nat.
Proof.
  split.
  - apply (proj1 (getGroupByAnnotators_pages (fun _ _ => true) 1%Z 0%Z ""
                    store_ex)). lia.
  - destruct (proj2 (getGroupByAnnotators_pages (fun _ _ => true) 1%Z 1%Z ""
                       store_ex)) as (g & Hg & Hlen & _); [lia|].
    exists g. split; [exact Hg|exact Hlen].
Defined.

Lemma getGroupByAnnotators_groups_witness :
  AnnotatorGroup.amount_total group_ex
  = length (AnnotatorGroup.children group_ex)
  /\ (AnnotatorGroup.amount_done group_ex
      + length (List.filter
                  (fun c => bool_decide (DocumentChild.status c = PENDING))
                  (AnnotatorGroup.children group_ex))
      = AnnotatorGroup.amount_total group_ex)%nat
  /\ forall c,
       In c (AnnotatorGroup.children group_ex) ->
       exists a, In a (assignments store_ex)
                 /\ Assignment.id a = DocumentChild.assignment_id c
                 /\ Assignment.task_id a = 1%Z.
Proof.
  destruct (getGroupByAnnotators (fun _ _ => true) 1 1 "" store_ex)
    as [e|g] eqn:Hrun.
  { vm_compute in Hrun. discriminate Hrun. }
  assert (Hin : In group_ex (group_data g)).
  { pose proof Hrun as H0. vm_compute in H0. injection H0 as <-.
    vm_compute. left. reflexivity. }
  destruct (getGroupByAnnotators_groups (fun _ _ => true) 1%Z 1%Z ""
              store_ex g group_ex Hrun Hin)
    as (Htotal & Hsum & _ & _ & n & _ & _ & Hchildren).
  split; [exact Htotal|]. split; [exact Hsum|].
  intros c Hc. destruct (Hchildren c Hc) as (a & Ha & Hid & Ht & _).
  exists a. auto.
Defined.

Lemma getGroupByAnnotators_wildcard_filter_witness :
  getGroupByAnnotators (fun _ _ => false) 1 1 "%_%" store_ex
  = getGroupByAnnotators (fun _ _ => true) 1 1 "" store_ex.
Proof.
  apply getGroupByAnnotators_wildcard_filter.
  repeat constructor; first [left; reflexivity|right; reflexivity].
Defined.

Lemma getCountByProject_counts_assignments_witness :
  getCountByProject 1 store_ex = inr (Some 3%Z)
  /\ getCountByProject 2 store_ex = inr (Some 0%Z).
Proof.
  split.
  - refine (getCountByProject_counts_assignments 1%Z store_ex _).
    apply (bool_decide_unpack _). vm_compute. exact I.
  - refine (getCountByProject_counts_assignments 2%Z store_ex _).
    apply (bool_decide_unpack _). vm_compute. exact I.
Defined.

(** * Reassignment: every outcome *)

Section CutShort.
Variable env : Env.



End CutShort.


(** * Replication and merge: the call of [createMany] *)




(** * The outcomes on concrete stores *)




